(** * A shallow embedding of the Proxmox VE API client

    The Go package [proxmox] (client.go, vm.go and the type declarations
    next to them) is rendered as Rocq definitions: records for the structs,
    an inductive type for the [AuthMethod] enum and one for the errors the
    package makes, and a state monad for the methods of [*Client], which
    read and write the client and talk to an HTTP server. As in Go, an
    error is a returned value: a method returns its results together with
    an [option error], [None] being nil.

    Strings are byte strings ([string] of [ascii]), Go's [int] and
    [time.Duration] are [Z], Go maps are [gmap]s, and a nil map is [None].
    Contexts, the two mutexes of the client and the log lines of [StartVM]
    and [StopVM] are left out: the methods are run one at a time and to
    their end. *)

From Stdlib Require Import ZArith Ascii String List Bool Lia DecimalString.
From stdpp Require Import base tactics option list gmap strings fin_maps.

Set Warnings "-register-all".

Local Open Scope string_scope.
Local Open Scope list_scope.
Local Open Scope Z_scope.

(** ** Bytes and strings *)

Module Bytes.

Definition code (c : ascii) : N := N_of_ascii c.

Definition between (lo hi c : ascii) : bool :=
  ((code lo <=? code c) && (code c <=? code hi))%N.

Definition is_lower (c : ascii) : bool := between "a" "z" c.
Definition is_upper (c : ascii) : bool := between "A" "Z" c.
Definition is_digit (c : ascii) : bool := between "0" "9" c.
Definition is_alnum (c : ascii) : bool := is_lower c || is_upper c || is_digit c.

Definition to_lower (c : ascii) : ascii :=
  if is_upper c then ascii_of_N (code c + 32) else c.
Definition to_upper (c : ascii) : ascii :=
  if is_lower c then ascii_of_N (code c - 32) else c.

Definition eqb (a b : ascii) : bool := Ascii.eqb a b.

Fixpoint mem (c : ascii) (s : string) : bool :=
  match s with
  | EmptyString => false
  | String d r => eqb c d || mem c r
  end.

Fixpoint all (p : ascii -> bool) (s : string) : bool :=
  match s with
  | EmptyString => true
  | String c r => p c && all p r
  end.

Fixpoint smap (f : ascii -> ascii) (s : string) : string :=
  match s with
  | EmptyString => EmptyString
  | String c r => String (f c) (smap f r)
  end.

(** [strings.TrimRight(s, cutset)]: drop every trailing byte that is in
    [cutset]. *)
Fixpoint TrimRight (s cutset : string) : string :=
  match s with
  | EmptyString => EmptyString
  | String c r =>
      match TrimRight r cutset with
      | EmptyString => if mem c cutset then EmptyString else String c EmptyString
      | r' => String c r'
      end
  end.

(** The first [n] bytes of [s] (what [io.LimitReader] lets through). *)
Fixpoint take (n : nat) (s : string) : string :=
  match n, s with
  | S n', String c r => String c (take n' r)
  | _, _ => EmptyString
  end.

(** [strconv.Itoa] and the verb [%d]. *)
Definition Itoa (z : Z) : string := NilZero.string_of_int (Z.to_int z).

End Bytes.

(** ** net/url: escaping

    [shouldEscape] and [escape] of Go's net/url, for the three modes this
    package reaches: [url.PathEscape] (one path segment), the path of
    [URL.String] and [url.QueryEscape]. *)

Module URLEscape.
Import Bytes.

Inductive encoding := encodePath | encodePathSegment | encodeQueryComponent.

Definition shouldEscape (c : ascii) (mode : encoding) : bool :=
  if is_alnum c then false
  else if mem c "-_.~" then false
  else if mem c "$&+,/:;=?@" then
    match mode with
    | encodePath => eqb c "?"
    | encodePathSegment => eqb c "/" || eqb c ";" || eqb c "," || eqb c "?"
    | encodeQueryComponent => true
    end
  else true.

Definition upperhex (n : N) : ascii :=
  match String.get (N.to_nat n) "0123456789ABCDEF" with
  | Some c => c
  | None => "0"%char
  end.

Definition escape_byte (mode : encoding) (c : ascii) : string :=
  if shouldEscape c mode then
    match mode, eqb c " " with
    | encodeQueryComponent, true => "+"
    | _, _ =>
        String "%" (String (upperhex (code c / 16)) (String (upperhex (code c mod 16)) ""))
    end
  else String c "".

Fixpoint escape (s : string) (mode : encoding) : string :=
  match s with
  | EmptyString => EmptyString
  | String c r => escape_byte mode c +:+ escape r mode
  end.

Definition PathEscape (s : string) : string := escape s encodePathSegment.
Definition QueryEscape (s : string) : string := escape s encodeQueryComponent.

End URLEscape.

(** ** net/textproto: canonical header keys and [http.Header] *)

Module Header.
Import Bytes.

Definition validHeaderFieldByte (c : ascii) : bool :=
  is_alnum c || mem c "!#$%&'*+-.^_`|~".

Fixpoint canon (upper : bool) (s : string) : string :=
  match s with
  | EmptyString => EmptyString
  | String c r =>
      let c' := if upper then to_upper c else to_lower c in
      String c' (canon (eqb c' "-") r)
  end.

(** A key with a byte that is no token byte is kept as it is; any other
    key gets an upper-case first letter and an upper-case letter after each
    dash, and lower-case letters elsewhere. *)
Definition CanonicalMIMEHeaderKey (s : string) : string :=
  if all validHeaderFieldByte s then canon true s else s.

(** Every header of this package is written with [Set], which replaces the
    values under the canonical key by the single new value, so a header is
    a map from canonical keys to one value. *)
Abbreviation t := (gmap string string).

Definition Set_ (h : t) (k v : string) : t := <[CanonicalMIMEHeaderKey k := v]> h.

(** [Get] gives the empty string when the key is absent. *)
Definition Get (h : t) (k : string) : string :=
  default "" (h !! CanonicalMIMEHeaderKey k).

End Header.

(** ** encoding/json: values

    The JSON text of a response is seen through the value it denotes; a
    number keeps its literal, an object keeps its members in the order and
    with the repetitions of the text. *)

Module JSON.

Inductive t :=
| Null
| Bool (b : bool)
| Number (lit : string)
| Str (s : string)
| Array (items : list t)
| Object (members : list (string * t)).

Definition isSpace (c : ascii) : bool :=
  Bytes.mem c (String " " (String "009" (String "010" (String "013" "")))).

End JSON.

(** ** Go values

    [float64] is kept abstract: the package only reads doubles from JSON
    literals and prints them back. *)

Class Float64 := {
  float64 : Type;
  (** [strconv.ParseFloat(lit, 64)] on a JSON number literal; [None] when
      the literal is out of range. *)
  ParseFloat : string -> option float64;
  (** [fmt.Sprintf("%.0f", f)] *)
  Format0f : float64 -> string;
}.

Section GoValues.
Context `{Float64}.

(** What an [any] of this package can hold: the dynamic types that
    [toJSONNumber] switches on and those that [json.Unmarshal] stores into
    an interface. A nested map is held as its entries in the order they
    were stored. *)
Inductive any :=
| VNil
| VBool (b : bool)
| VFloat64 (f : float64)
| VString (s : string)
| VNumber (n : string)            (* json.Number *)
| VInt (i : Z)
| VSlice (items : list any)
| VMap (entries : list (string * any)).

(** A [map[string]any]; [None] is the nil map. *)
Definition gomap := option (gmap string any).

End GoValues.

(** ** HTTP messages *)

(** A [url.URL] as this package uses it: what [String] writes before the
    path (scheme, user and host), and the decoded path. The query and the
    fragment of a base URL are not kept. *)
Record URL := { Origin : string; Path : string }.

Record Cookie := { Name : string; Value : string }.

Record Request := {
  Method : string;
  Url : string;
  Headers : Header.t;
  Body : option string;
}.

Record Response := {
  StatusCode : Z;
  RespBody : string;
  (** reading the body ends in an I/O error *)
  BodyFault : bool;
  (** [resp.Cookies()]: the cookies of the Set-Cookie headers, in order *)
  Cookies : list Cookie;
}.

(** What [httpClient.Do] comes back with. *)
Inductive RoundTrip :=
| Answer (resp : Response)
| NetError (msg : string).

(** ** The parts of Go's library that stay parameters

    [url.Parse], the JSON scanner, cookie sanitising and the verb [%v] are
    taken as they are; every theorem below holds for whatever they
    compute. *)

Class GoLib `{Float64} := {
  (** [url.Parse]: [None] for an error. *)
  url_Parse : string -> option URL;
  (** The first JSON value of a text and the text after it; [None] for a
      syntax error. *)
  json_scan : string -> option (JSON.t * string);
  (** [fmt.Sprintf("%v", v)] *)
  fmt_v : any -> string;
  sanitizeCookieName : string -> string;
  sanitizeCookieValue : string -> string;
}.

(** ** client.go: types *)

Inductive AuthMethod := AuthPassword | AuthToken.

Definition apiRootPath : string := "/api2/json".
Definition apiClusterResourcesPath : string := "/api2/json/cluster/resources".
Definition apiNodesPath : string := "/api2/json/nodes".
Definition apiVmStartSubPath : string := "/status/start".
Definition apiVmStopSubPath : string := "/status/stop".

Module time.
(** A [time.Duration] is a count of nanoseconds in an int64; a [time.Time]
    is counted in nanoseconds from the zero [Time]. *)
Definition Second : Z := 1000000000.
Definition Hour : Z := 3600 * Second.
Definition maxDuration : Z := 2 ^ 63 - 1.
Definition minDuration : Z := - 2 ^ 63.

(** [t.Sub(u)], which saturates at the ends of the int64 range. *)
Definition Sub (t u : Z) : Z :=
  if maxDuration <? t - u then maxDuration
  else if t - u <? minDuration then minDuration
  else t - u.
End time.

Record tlsConfig := { InsecureSkipVerify : bool }.
Record httpTransport := { TLSClientConfig : tlsConfig }.
Record httpClientT := { Timeout : Z; Transport : httpTransport }.

(** The two mutexes of the struct are left out: the methods are run one at
    a time. *)
Record Client := {
  baseURL : URL;
  authMethod : AuthMethod;
  username : string;
  password : string;
  httpClient : httpClientT;
  authTicket : string;
  csrfToken : string;
  authCookie : option Cookie;
  lastLogin : Z;
  loginExpiry : Z;
}.

(** The credential state of a client, and its zero value. *)
Record Credentials := {
  credTicket : string;
  credCSRF : string;
  credCookie : option Cookie;
  credLastLogin : Z;
}.

Definition credentials (c : Client) : Credentials :=
  {| credTicket := authTicket c; credCSRF := csrfToken c;
     credCookie := authCookie c; credLastLogin := lastLogin c |}.

Definition zeroCredentials : Credentials :=
  {| credTicket := ""; credCSRF := ""; credCookie := None; credLastLogin := 0 |}.

Definition withCredentials (c : Client) (k : Credentials) : Client :=
  {| baseURL := baseURL c; authMethod := authMethod c;
     username := username c; password := password c;
     httpClient := httpClient c;
     authTicket := credTicket k; csrfToken := credCSRF k;
     authCookie := credCookie k; lastLogin := credLastLogin k;
     loginExpiry := loginExpiry c |}.

(** ** ProxmoxQemuVmConfig *)

Record ProxmoxQemuVmConfig := {
  cfgName : string;
  cfgVmid : string;
  cfgMemoryMB : string;
  cfgSockets : string;
  cfgCores : string;
  cfgDescription : string;
  (** Raw holds additional fields not mapped above; [None] is the nil map. *)
  cfgRaw : option (gmap string string);
}.

(** ** Errors

    One constructor for each error the package makes; the payloads are the
    values the Go error is built from. *)

Section Errors.
Context `{Float64}.

Inductive error :=
| ErrBaseURLRequired                            (* "base URL required" *)
| ErrInvalidBaseURL                             (* "invalid base URL: %w" *)
| ErrNewRequest                                 (* from http.NewRequestWithContext *)
| ErrTransport (msg : string)                   (* from httpClient.Do, as it is *)
| ErrLoginRequest (msg : string)                (* "login request failed: %w" *)
| ErrLoginStatus (status : Z) (body : string)   (* "login failed: status=%d body=%s" *)
| ErrLoginDecode                                (* "decoding login response: %w" *)
| ErrReadBody                                   (* "reading response body: %w" *)
| APIError (Status : Z) (Errors : gomap)        (* &APIError{...} *)
| ErrInvalidJSON                                (* "invalid JSON response: %w" *)
| ErrDecodingData                               (* "decoding data: %w" *)
| ErrNilConfig                                  (* "VMConfigTyped cannot be nil" *)
| ErrInvalidVMID (vmid : Z)                     (* "invalid VMID: %d" *)
| ErrCreatingRequest                            (* "creating request: %w" *)
| ErrRequest (msg : string)                     (* "request error: %w" *)
| ErrUnexpectedStatus (status : Z) (body : string). (* "unexpected status %d: %s" *)

Inductive result (A : Type) :=
| Ok (a : A)
| Err (e : error).

End Errors.

Arguments Ok {_ _} a.
Arguments Err {_ _} e.

(** ** encoding/json: decoding into Go values *)

(** A type that [json.Unmarshal] can fill: [json_store v t] is the content
    of a variable that held [t] after the text of [v] was unmarshalled into
    it, and whether Unmarshal returned no error. *)
Class Target (T : Type) := json_store : JSON.t -> T -> T * bool.

Section Decoding.
Context `{GoLib}.

(** [json.Unmarshal] first checks that the whole text is one JSON value
    between white space, and stores nothing when it is not. *)
Definition json_whole (data : string) : option JSON.t :=
  match json_scan data with
  | Some (v, rest) => if Bytes.all JSON.isSpace rest then Some v else None
  | None => None
  end.

(** A [json.Decoder] reads the first value of the stream and leaves the
    rest; a read error before that is the error of [Decode]. *)
Definition json_first (data : string) (fault : bool) : option JSON.t :=
  if fault then None else fst <$> json_scan data.

(** A member fills the struct field whose name it equals up to the case of
    its ASCII letters. *)
Definition equalFold (a b : string) : bool :=
  String.eqb (Bytes.smap Bytes.to_lower a) (Bytes.smap Bytes.to_lower b).

(** A JSON value stored into an [any]. A number literal that
    [ParseFloat] refuses is stored as nil and makes Unmarshal return an
    error ([any_ok]). *)
Fixpoint to_any (v : JSON.t) : any :=
  match v with
  | JSON.Null => VNil
  | JSON.Bool b => VBool b
  | JSON.Number lit =>
      match ParseFloat lit with Some f => VFloat64 f | None => VNil end
  | JSON.Str s => VString s
  | JSON.Array items => VSlice (map to_any items)
  | JSON.Object members => VMap (map (fun '(k, x) => (k, to_any x)) members)
  end.

Fixpoint any_ok (v : JSON.t) : bool :=
  match v with
  | JSON.Number lit => bool_decide (is_Some (ParseFloat lit))
  | JSON.Array items => forallb any_ok items
  | JSON.Object members => forallb (fun '(_, x) => any_ok x) members
  | _ => true
  end.

(** Into a [map[string]any]: null sets the map to nil; an object is stored
    member by member into the map that is there, or into a new one when it
    is nil; any other value is a type error and stores nothing. *)
Definition store_map (v : JSON.t) (m : gomap) : gomap * bool :=
  match v with
  | JSON.Null => (None, true)
  | JSON.Object members =>
      (Some (foldl (fun acc '(k, x) => <[k := to_any x]> acc) (default ∅ m) members),
       forallb (fun '(_, x) => any_ok x) members)
  | _ => (m, false)
  end.

#[export] Instance gomap_target : Target gomap := store_map.

(** Into a string field: null stores nothing. *)
Definition store_string (v : JSON.t) (s : string) : string * bool :=
  match v with
  | JSON.Str s' => (s', true)
  | JSON.Null => (s, true)
  | _ => (s, false)
  end.

(** Into a struct: null stores nothing, an object offers its members in
    turn to [field], any other value is a type error. Decoding goes on
    after a type error in a member. *)
Definition store_struct {S : Type} (field : string -> JSON.t -> S -> S * bool)
    (v : JSON.t) (s : S) : S * bool :=
  match v with
  | JSON.Null => (s, true)
  | JSON.Object members =>
      foldl (fun '(s, ok) '(k, x) => let '(s', ok') := field k x s in (s', ok && ok'))
            (s, true) members
  | _ => (s, false)
  end.

(** [json.Unmarshal(data, &wrapper)] into a zero struct. *)
Definition unmarshal_struct {S : Type} (field : string -> JSON.t -> S -> S * bool)
    (data : string) (zero : S) : S * bool :=
  match json_whole data with
  | Some v => store_struct field v zero
  | None => (zero, false)
  end.

(** [struct { Errors map[string]interface{} `json:"errors"` }] *)
Definition errors_field (k : string) (x : JSON.t) (w : gomap) : gomap * bool :=
  if equalFold k "errors" then store_map x w else (w, true).

(** [struct { Data json.RawMessage `json:"data"` }]. A RawMessage takes the
    text of any value, null too; it is seen here through the value of its
    text, [None] being the empty message. *)
Definition data_field (k : string) (x : JSON.t) (w : option JSON.t) : option JSON.t * bool :=
  if equalFold k "data" then (Some x, true) else (w, true).

(** The struct that [Login] decodes:
    [struct { Data struct { Ticket string; CSRFPreventionToken string } }] *)
Definition ticket_field (k : string) (x : JSON.t) (d : string * string) : (string * string) * bool :=
  if equalFold k "ticket" then
    let '(s, ok) := store_string x d.1 in ((s, d.2), ok)
  else if equalFold k "CSRFPreventionToken" then
    let '(s, ok) := store_string x d.2 in ((d.1, s), ok)
  else (d, true).

Definition login_field (k : string) (x : JSON.t) (d : string * string) : (string * string) * bool :=
  if equalFold k "data" then store_struct ticket_field x d else (d, true).

End Decoding.

(** ** The world a client runs in

    A method of [*Client] reads and writes the client, reads the clock and
    sends requests. [server] answers a request from the requests that went
    before it; [wire] records what was sent, oldest first. The clock
    stands still during a call. *)

Record World := {
  cli : Client;
  wire : list Request;
  clock : Z;
  server : list Request -> Request -> RoundTrip;
}.

Definition M (A : Type) : Type := World -> A * World.

Definition ret {A} (a : A) : M A := fun w => (a, w).

Definition bind {A B} (m : M A) (k : A -> M B) : M B :=
  fun w => let '(a, w') := m w in k a w'.

Notation "'let*' x ':=' m 'in' k" := (bind m (fun x => k))
  (at level 10, x pattern, m at level 100, k at level 200).

Definition getClient : M Client := fun w => (cli w, w).

Definition putClient (c : Client) : M unit := fun w =>
  (tt, {| cli := c; wire := wire w; clock := clock w; server := server w |}).

Definition time_Now : M Z := fun w => (clock w, w).

(** [time.Since(t)] *)
Definition time_Since (t : Z) : M Z :=
  let* now := time_Now in ret (time.Sub now t).

Definition pushWire (w : World) (req : Request) : World :=
  {| cli := cli w; wire := wire w ++ [req]; clock := clock w; server := server w |}.

(** [c.httpClient.Do(req)] *)
Definition httpDo (req : Request) : M RoundTrip := fun w =>
  (server w (wire w) req, pushWire w req).

Section NetHTTP.
Context `{GoLib}.

(** [u.String()]: the path is written escaped, as [EscapedPath] does for a
    URL whose [Path] was assigned. *)
Definition URL_String (u : URL) : string :=
  Origin u +:+ URLEscape.escape (Path u) URLEscape.encodePath.

Definition withPath (u : URL) (p : string) : URL := {| Origin := Origin u; Path := p |}.

(** [http.NewRequestWithContext]: an empty method is GET; the method has
    to be a token and the URL has to parse. *)
Definition validMethod (method : string) : bool :=
  negb (method =? "")%string && Bytes.all Header.validHeaderFieldByte method.

Definition NewRequestWithContext (method url : string) (body : option string) : option Request :=
  let method := if (method =? "")%string then "GET" else method in
  if negb (validMethod method) then None
  else match url_Parse url with
       | None => None
       | Some _ => Some {| Method := method; Url := url; Headers := ∅; Body := body |}
       end.

Definition setHeader (req : Request) (k v : string) : Request :=
  {| Method := Method req; Url := Url req;
     Headers := Header.Set_ (Headers req) k v; Body := Body req |}.

(** [req.AddCookie(c)] *)
Definition AddCookie (req : Request) (c : Cookie) : Request :=
  let s := sanitizeCookieName (Name c) +:+ "=" +:+ sanitizeCookieValue (Value c) in
  let old := Header.Get (Headers req) "Cookie" in
  if (old =? "")%string then setHeader req "Cookie" s
  else setHeader req "Cookie" (old +:+ "; " +:+ s).

(** [url.Values] filled with [Set] only: one value under each key.
    [Encode] writes the pairs sorted by key. *)
Fixpoint insert_sorted (kv : string * string) (l : list (string * string)) : list (string * string) :=
  match l with
  | [] => [kv]
  | kv' :: r => if String.leb kv.1 kv'.1 then kv :: l else kv' :: insert_sorted kv r
  end.

Definition sorted_pairs (v : gmap string string) : list (string * string) :=
  foldr insert_sorted [] (map_to_list v).

Fixpoint join_pairs (l : list (string * string)) : string :=
  match l with
  | [] => ""
  | [(k, v)] => URLEscape.QueryEscape k +:+ "=" +:+ URLEscape.QueryEscape v
  | (k, v) :: r =>
      URLEscape.QueryEscape k +:+ "=" +:+ URLEscape.QueryEscape v +:+ "&" +:+ join_pairs r
  end.

Definition Values_Encode (v : gmap string string) : string := join_pairs (sorted_pairs v).

End NetHTTP.

(** ** client.go *)

Section ClientGo.
Context `{GoLib}.

Definition newClient (base username password : string) (method : AuthMethod)
    (ignoreTlsError : bool) : result Client :=
  if (base =? "")%string then Err ErrBaseURLRequired
  else match url_Parse (Bytes.TrimRight base "/") with
       | None => Err ErrInvalidBaseURL
       | Some u =>
           (* Custom transport to optionally skip TLS verification *)
           let tr := {| TLSClientConfig := {| InsecureSkipVerify := ignoreTlsError |} |} in
           Ok {| baseURL := u;
                 authMethod := method;
                 username := username;
                 password := password;
                 httpClient := {| Timeout := 60 * time.Second; Transport := tr |};
                 authTicket := ""; csrfToken := ""; authCookie := None; lastLogin := 0;
                 loginExpiry := 1 * time.Hour |}
       end.

Definition NewClient (base username password : string) (tlsCfg useToken : bool) : result Client :=
  let authMethod := if useToken then AuthToken else AuthPassword in
  newClient base username password authMethod true.

Definition NewClientPassword (base username password : string) (tlsCfg : bool) : result Client :=
  newClient base username password AuthPassword true.

Definition NewClientToken (base tokenID secret : string) (tlsCfg : bool) : result Client :=
  newClient base tokenID secret AuthToken true.

(** The test [time.Since(c.lastLogin) < c.loginExpiry && c.authTicket != ""]. *)
Definition stillValid (c : Client) (since : Z) : bool :=
  (since <? loginExpiry c) && negb (authTicket c =? "")%string.

Definition loginRequest (c : Client) : option Request :=
  let loginURL := withPath (baseURL c) "/api2/json/access/ticket" in
  let form := <["password" := password c]> (<["username" := username c]> (∅ : gmap string string)) in
  match NewRequestWithContext "POST" (URL_String loginURL) (Some (Values_Encode form)) with
  | None => None
  | Some req => Some (setHeader req "Content-Type" "application/x-www-form-urlencoded")
  end.

(** The first cookie named PVEAuthCookie, or nil. *)
Definition findAuthCookie (cks : list Cookie) : option Cookie :=
  List.find (fun ck => (Name ck =? "PVEAuthCookie")%string) cks.

(** [json.NewDecoder(resp.Body).Decode(&v)]: the ticket and the CSRF token
    of the response, or [None] when [Decode] returns an error. *)
Definition decodeLogin (resp : Response) : option (string * string) :=
  match json_first (RespBody resp) (BodyFault resp) with
  | None => None
  | Some v =>
      match store_struct login_field v ("", "") with
      | (d, true) => Some d
      | (_, false) => None
      end
  end.

(** Login authenticates if using password mode. *)
Definition Login : M (option error) :=
  let* c := getClient in
  match authMethod c with
  | AuthToken => ret None   (* token mode doesn't require login *)
  | AuthPassword =>
      let* since := time_Since (lastLogin c) in
      if stillValid c since then ret None   (* Skip if still valid *)
      else match loginRequest c with
      | None => ret (Some ErrNewRequest)
      | Some req =>
          let* rt := httpDo req in
          match rt with
          | NetError msg => ret (Some (ErrLoginRequest msg))
          | Answer resp =>
              if negb (StatusCode resp =? 200) then
                ret (Some (ErrLoginStatus (StatusCode resp) (Bytes.take 512 (RespBody resp))))
              else match decodeLogin resp with
              | None => ret (Some ErrLoginDecode)
              | Some (ticket, csrf) =>
                  let authCookie := findAuthCookie (Cookies resp) in
                  let* now := time_Now in
                  let* _ := putClient (withCredentials c
                              {| credTicket := ticket; credCSRF := csrf;
                                 credCookie := authCookie; credLastLogin := now |}) in
                  ret None
              end
          end
      end
  end.

(** The authentication step of [do]. *)
Definition attachAuth (c : Client) (csrf : bool) (req : Request) : Request :=
  match authMethod c with
  | AuthToken =>
      setHeader req "Authorization" ("PVEAPIToken=" +:+ username c +:+ "=" +:+ password c)
  | AuthPassword =>
      let req :=
        if csrf && negb (csrfToken c =? "")%string
        then setHeader req "CSRFPreventionToken" (csrfToken c) else req in
      match authCookie c with
      | Some ck => AddCookie req ck
      | None =>
          if negb (authTicket c =? "")%string
          then setHeader req "Cookie" ("PVEAuthCookie=" +:+ authTicket c) else req
      end
  end.

(** The request [do] sends. [headers] is the caller's map in the order the
    [range] loop visits it. *)
Definition buildRequest (c : Client) (method path : string) (body : option string)
    (headers : list (string * string)) (csrf : bool) : option Request :=
  let full := withPath (baseURL c) (Bytes.TrimRight (Path (baseURL c)) "/" +:+ path) in
  match NewRequestWithContext method (URL_String full) body with
  | None => None
  | Some req =>
      let req := attachAuth c csrf req in
      let req := setHeader req "Accept" "application/json" in
      Some (foldl (fun req '(k, v) => setHeader req k v) req headers)
  end.

(** What [do] makes of a response: the content of the decode target, and
    the error returned. *)
Definition unwrap {T} `{Target T} (resp : Response) (out : option T) : option T * option error :=
  if BodyFault resp then (out, Some ErrReadBody)
  else if 400 <=? StatusCode resp then
    (* Try to parse Proxmox JSON error format, but ignore parsing errors *)
    let wrapper := (unmarshal_struct errors_field (RespBody resp) None).1 in
    (out, Some (APIError (StatusCode resp) wrapper))
  else match out with
  | Some t =>
      if (0 <? String.length (RespBody resp))%nat then
        match unmarshal_struct data_field (RespBody resp) None with
        | (_, false) => (out, Some ErrInvalidJSON)
        | (None, true) => (out, None)
        | (Some data, true) =>
            let '(t', ok) := json_store data t in
            (Some t', if ok then None else Some ErrDecodingData)
        end
      else (out, None)
  | None => (out, None)
  end.

Definition do {T} `{Target T} (method path : string) (body : option string)
    (headers : list (string * string)) (csrf : bool) (out : option T)
    : M (option T * option error) :=
  let* c := getClient in
  match buildRequest c method path body headers csrf with
  | None => ret (out, Some ErrNewRequest)
  | Some req =>
      let* rt := httpDo req in
      match rt with
      | NetError msg => ret (out, Some (ErrTransport msg))
      | Answer resp => ret (unwrap resp out)
      end
  end.

End ClientGo.

(** ** vm.go *)

(** [QemuVm] and the way [json] fills a [[]QemuVm] are left to the
    resource layer. *)
Class VmSchema := {
  QemuVm : Type;
  store_vms : JSON.t -> list QemuVm -> list QemuVm * bool;
}.

Section VmGo.
Context `{GoLib} `{VmSchema}.

Definition setIf (k v : string) (params : gmap string string) : gmap string string :=
  if negb (v =? "")%string then <[k := v]> params else params.

(** ToParams converts VMConfigTyped to API form parameters. *)
Definition ToParams (cfg : ProxmoxQemuVmConfig) : gmap string string :=
  let params := (∅ : gmap string string) in
  let params := setIf "name" (cfgName cfg) params in
  let params := setIf "memory" (cfgMemoryMB cfg) params in
  let params := setIf "sockets" (cfgSockets cfg) params in
  let params := setIf "cores" (cfgCores cfg) params in
  let params := setIf "description" (cfgDescription cfg) params in
  map_fold setIf params (default ∅ (cfgRaw cfg)).

(** CreateVM creates a new VM on a given Proxmox node using VMConfigTyped. *)
Definition CreateVM (node : string) (vmid : Z) (cfg : option ProxmoxQemuVmConfig)
    : M (option error) :=
  match cfg with
  | None => ret (Some ErrNilConfig)
  | Some cfg =>
      if vmid <=? 0 then ret (Some (ErrInvalidVMID vmid))
      else
        let params := ToParams cfg in
        let params := <["vmid" := Bytes.Itoa vmid]> params in
        let path := apiNodesPath +:+ "/" +:+ URLEscape.PathEscape node +:+ "/qemu" in
        let headers := [("Content-Type", "application/x-www-form-urlencoded")] in
        (* The Proxmox API expects POST for creating a VM. *)
        let* r := do "POST" path (Some (Values_Encode params)) headers true (@None gomap) in
        ret r.2
  end.

(** Helper to safely convert numeric API values to json.Number *)
Definition toJSONNumber (v : any) : string :=
  match v with
  | VNumber t => t
  | VInt t => Bytes.Itoa t
  | VFloat64 t => Format0f t
  | VString t => t
  | _ => ""
  end.

Definition emptyConfig : ProxmoxQemuVmConfig :=
  {| cfgName := ""; cfgVmid := ""; cfgMemoryMB := ""; cfgSockets := ""; cfgCores := "";
     cfgDescription := ""; cfgRaw := Some ∅ |}.

(** The entries of a map as a [range] loop meets them. Go leaves the order
    open; the loops below give the same result in every order
    ([range_order_irrelevant]). *)
Definition range (raw : gomap) : list (string * any) := map_to_list (default ∅ raw).

(** The loop of [GetVMConfig] (vm.go, lines 77 to 93) over the entries. *)
Definition GetVMConfig_loop (entries : list (string * any)) : ProxmoxQemuVmConfig :=
  foldl (fun cfg '(k, v) =>
    if (k =? "name")%string then
      {| cfgName := fmt_v v; cfgVmid := cfgVmid cfg; cfgMemoryMB := cfgMemoryMB cfg;
         cfgSockets := cfgSockets cfg; cfgCores := cfgCores cfg;
         cfgDescription := cfgDescription cfg; cfgRaw := cfgRaw cfg |}
    else if (k =? "memory")%string then
      {| cfgName := cfgName cfg; cfgVmid := cfgVmid cfg; cfgMemoryMB := toJSONNumber v;
         cfgSockets := cfgSockets cfg; cfgCores := cfgCores cfg;
         cfgDescription := cfgDescription cfg; cfgRaw := cfgRaw cfg |}
    else if (k =? "sockets")%string then
      {| cfgName := cfgName cfg; cfgVmid := cfgVmid cfg; cfgMemoryMB := cfgMemoryMB cfg;
         cfgSockets := toJSONNumber v; cfgCores := cfgCores cfg;
         cfgDescription := cfgDescription cfg; cfgRaw := cfgRaw cfg |}
    else if (k =? "cores")%string then
      {| cfgName := cfgName cfg; cfgVmid := cfgVmid cfg; cfgMemoryMB := cfgMemoryMB cfg;
         cfgSockets := cfgSockets cfg; cfgCores := toJSONNumber v;
         cfgDescription := cfgDescription cfg; cfgRaw := cfgRaw cfg |}
    else if (k =? "description")%string then
      {| cfgName := cfgName cfg; cfgVmid := cfgVmid cfg; cfgMemoryMB := cfgMemoryMB cfg;
         cfgSockets := cfgSockets cfg; cfgCores := cfgCores cfg;
         cfgDescription := fmt_v v; cfgRaw := cfgRaw cfg |}
    else
      {| cfgName := cfgName cfg; cfgVmid := cfgVmid cfg; cfgMemoryMB := cfgMemoryMB cfg;
         cfgSockets := cfgSockets cfg; cfgCores := cfgCores cfg;
         cfgDescription := cfgDescription cfg;
         cfgRaw := (fun m => <[k := fmt_v v]> m) <$> cfgRaw cfg |})
    emptyConfig entries.

(** GetVMConfig returns a typed VM config. *)
Definition GetVMConfig (node : string) (vmid : Z)
    : M (option ProxmoxQemuVmConfig * option error) :=
  let path := apiNodesPath +:+ "/" +:+ URLEscape.PathEscape node +:+ "/qemu/"
              +:+ Bytes.Itoa vmid +:+ "/config" in
  let* r := do "GET" path None [] false (Some (None : gomap)) in
  match r with
  | (_, Some err) => ret (None, Some err)
  | (raw, None) => ret (Some (GetVMConfig_loop (range (default None raw))), None)
  end.

Definition StartVM (node : string) (vmid : Z) : M (gomap * option error) :=
  let path := apiNodesPath +:+ "/" +:+ URLEscape.PathEscape node +:+ "/qemu/"
              +:+ Bytes.Itoa vmid +:+ apiVmStartSubPath in
  let* r := do "POST" path None [] false (Some (None : gomap)) in
  match r with
  | (_, Some err) => ret (None, Some err)
  | (resp, None) => ret (default None resp, None)
  end.

Definition StopVM (node : string) (vmid : Z) : M (gomap * option error) :=
  let path := apiNodesPath +:+ "/" +:+ URLEscape.PathEscape node +:+ "/qemu/"
              +:+ Bytes.Itoa vmid +:+ apiVmStopSubPath in
  let* r := do "POST" path None [] false (Some (None : gomap)) in
  match r with
  | (_, Some err) => ret (None, Some err)
  | (resp, None) => ret (default None resp, None)
  end.

(** UpdateVMConfig updates a VM configuration using VMConfigTyped. *)
Definition UpdateVMConfig (node : string) (vmid : Z) (cfg : option ProxmoxQemuVmConfig)
    : M (option error) :=
  match cfg with
  | None => ret (Some ErrNilConfig)
  | Some cfg =>
      let params := ToParams cfg in
      let path := apiNodesPath +:+ "/" +:+ URLEscape.PathEscape node +:+ "/qemu/"
                  +:+ Bytes.Itoa vmid +:+ "/config" in
      let headers := [("Content-Type", "application/x-www-form-urlencoded")] in
      let* r := do "PUT" path (Some (Values_Encode params)) headers true (@None gomap) in
      ret r.2
  end.

(** SetMemory updates VM memory (MB) using VMConfigTyped. *)
Definition SetMemory (node : string) (vmid memMB : Z) : M (option error) :=
  let cfg := {| cfgName := ""; cfgVmid := ""; cfgMemoryMB := Bytes.Itoa memMB;
                cfgSockets := ""; cfgCores := ""; cfgDescription := ""; cfgRaw := None |} in
  UpdateVMConfig node vmid (Some cfg).

(** SetCores updates CPU cores using VMConfigTyped. *)
Definition SetCores (node : string) (vmid cores : Z) : M (option error) :=
  let cfg := {| cfgName := ""; cfgVmid := ""; cfgMemoryMB := "";
                cfgSockets := ""; cfgCores := Bytes.Itoa cores; cfgDescription := "";
                cfgRaw := None |} in
  UpdateVMConfig node vmid (Some cfg).

(** [struct { Data []QemuVm `json:"data"` }] *)
Definition vms_field (k : string) (x : JSON.t) (d : list QemuVm) : list QemuVm * bool :=
  if equalFold k "data" then store_vms x d else (d, true).

(** The URL [ListVMs] formats, and the request it sends. *)
Definition listVMsURL (c : Client) (node : string) (full : bool) : string :=
  let fullInt := if full then 1 else 0 in
  URL_String (baseURL c) +:+ "/api2/json/nodes/" +:+ node +:+ "/qemu?full=" +:+ Bytes.Itoa fullInt.

Definition listVMsAuth (c : Client) (req : Request) : Request :=
  match authMethod c with
  | AuthToken =>
      setHeader req "Authorization" ("PVEAPIToken=" +:+ username c +:+ "=" +:+ password c)
  | AuthPassword =>
      (* If using ticket/session-based auth *)
      let req := setHeader req "Cookie" ("PVEAuthCookie=" +:+ authTicket c) in
      setHeader req "CSRFPreventionToken" (csrfToken c)
  end.

Definition ListVMs (node : string) (full : bool) : M (list QemuVm * option error) :=
  let* c := getClient in
  match NewRequestWithContext "GET" (listVMsURL c node full) None with
  | None => ret ([], Some ErrCreatingRequest)
  | Some req =>
      let req := listVMsAuth c req in
      let* rt := httpDo req in
      match rt with
      | NetError msg => ret ([], Some (ErrRequest msg))
      | Answer resp =>
          if negb (StatusCode resp =? 200) then
            ret ([], Some (ErrUnexpectedStatus (StatusCode resp) (RespBody resp)))
          else match json_first (RespBody resp) (BodyFault resp) with
          | None => ret ([], Some ErrDecodingData)
          | Some v =>
              match store_struct vms_field v [] with
              | (_, false) => ret ([], Some ErrDecodingData)
              | (data, true) => ret (data, None)
              end
          end
      end
  end.

End VmGo.

(** ** part_000: ParseQemuVmConfig *)

Section ParseConfig.
Context `{GoLib}.

(** The loop of [ParseQemuVmConfig] over the entries of [raw]. *)
Definition ParseQemuVmConfig_loop (entries : list (string * any)) : ProxmoxQemuVmConfig :=
  foldl (fun cfg '(k, v) =>
    if (k =? "name")%string then
      {| cfgName := fmt_v v; cfgVmid := cfgVmid cfg; cfgMemoryMB := cfgMemoryMB cfg;
         cfgSockets := cfgSockets cfg; cfgCores := cfgCores cfg;
         cfgDescription := cfgDescription cfg; cfgRaw := cfgRaw cfg |}
    else if (k =? "memory")%string then
      {| cfgName := cfgName cfg; cfgVmid := cfgVmid cfg; cfgMemoryMB := toJSONNumber v;
         cfgSockets := cfgSockets cfg; cfgCores := cfgCores cfg;
         cfgDescription := cfgDescription cfg; cfgRaw := cfgRaw cfg |}
    else if (k =? "sockets")%string then
      {| cfgName := cfgName cfg; cfgVmid := cfgVmid cfg; cfgMemoryMB := cfgMemoryMB cfg;
         cfgSockets := toJSONNumber v; cfgCores := cfgCores cfg;
         cfgDescription := cfgDescription cfg; cfgRaw := cfgRaw cfg |}
    else if (k =? "cores")%string then
      {| cfgName := cfgName cfg; cfgVmid := cfgVmid cfg; cfgMemoryMB := cfgMemoryMB cfg;
         cfgSockets := cfgSockets cfg; cfgCores := toJSONNumber v;
         cfgDescription := cfgDescription cfg; cfgRaw := cfgRaw cfg |}
    else if (k =? "description")%string then
      {| cfgName := cfgName cfg; cfgVmid := cfgVmid cfg; cfgMemoryMB := cfgMemoryMB cfg;
         cfgSockets := cfgSockets cfg; cfgCores := cfgCores cfg;
         cfgDescription := fmt_v v; cfgRaw := cfgRaw cfg |}
    else
      {| cfgName := cfgName cfg; cfgVmid := cfgVmid cfg; cfgMemoryMB := cfgMemoryMB cfg;
         cfgSockets := cfgSockets cfg; cfgCores := cfgCores cfg;
         cfgDescription := cfgDescription cfg;
         cfgRaw := (fun m => <[k := fmt_v v]> m) <$> cfgRaw cfg |})
    {| cfgName := ""; cfgVmid := ""; cfgMemoryMB := ""; cfgSockets := ""; cfgCores := "";
       cfgDescription := ""; cfgRaw := Some ∅ |}
    entries.

Definition ParseQemuVmConfig (raw : gomap) : ProxmoxQemuVmConfig :=
  ParseQemuVmConfig_loop (range raw).

End ParseConfig.

(** ** The exported methods as operations

    A test run is a list of calls, each at its own time. *)

Section Operations.
Context `{GoLib} `{VmSchema}.

Inductive Op :=
| OpLogin
| OpCreateVM (node : string) (vmid : Z) (cfg : option ProxmoxQemuVmConfig)
| OpGetVMConfig (node : string) (vmid : Z)
| OpStartVM (node : string) (vmid : Z)
| OpStopVM (node : string) (vmid : Z)
| OpUpdateVMConfig (node : string) (vmid : Z) (cfg : option ProxmoxQemuVmConfig)
| OpSetMemory (node : string) (vmid memMB : Z)
| OpSetCores (node : string) (vmid cores : Z)
| OpListVMs (node : string) (full : bool).

Inductive Reply :=
| RError (err : option error)
| RConfig (cfg : option ProxmoxQemuVmConfig) (err : option error)
| RMap (resp : gomap) (err : option error)
| RVms (vms : list QemuVm) (err : option error).

Definition call (op : Op) : M Reply :=
  match op with
  | OpLogin => let* e := Login in ret (RError e)
  | OpCreateVM node vmid cfg => let* e := CreateVM node vmid cfg in ret (RError e)
  | OpGetVMConfig node vmid => let* r := GetVMConfig node vmid in ret (RConfig r.1 r.2)
  | OpStartVM node vmid => let* r := StartVM node vmid in ret (RMap r.1 r.2)
  | OpStopVM node vmid => let* r := StopVM node vmid in ret (RMap r.1 r.2)
  | OpUpdateVMConfig node vmid cfg => let* e := UpdateVMConfig node vmid cfg in ret (RError e)
  | OpSetMemory node vmid memMB => let* e := SetMemory node vmid memMB in ret (RError e)
  | OpSetCores node vmid cores => let* e := SetCores node vmid cores in ret (RError e)
  | OpListVMs node full => let* r := ListVMs node full in ret (RVms r.1 r.2)
  end.

(** The operations other than [Login]: the resource operations. *)
Definition isResourceOp (op : Op) : bool :=
  match op with OpLogin => false | _ => true end.

Definition setClock (t : Z) : M unit := fun w =>
  (tt, {| cli := cli w; wire := wire w; clock := t; server := server w |}).

Fixpoint run (calls : list (Z * Op)) : M (list Reply) :=
  match calls with
  | [] => ret []
  | (t, op) :: rest =>
      let* _ := setClock t in
      let* r := call op in
      let* rs := run rest in
      ret (r :: rs)
  end.

End Operations.

(** ** A JSON scanner

    One scanner to run the definitions on: the grammar of RFC 8259, with
    the escapes [\uXXXX] read for ASCII code points only. *)

Module Scanner.
Import Bytes.

Definition quote : ascii := "034".
Definition backslash : ascii := "092".

Fixpoint skip_ws (s : string) : string :=
  match s with
  | String c r => if JSON.isSpace c then skip_ws r else s
  | EmptyString => s
  end.

Fixpoint strip_prefix (p s : string) : option string :=
  match p, s with
  | EmptyString, _ => Some s
  | String a p', String b s' => if eqb a b then strip_prefix p' s' else None
  | _, EmptyString => None
  end.

(** The leading digits of [s], and what follows them. *)
Fixpoint digits (s : string) : string * string :=
  match s with
  | String c r => if is_digit c then let '(d, r') := digits r in (String c d, r') else ("", s)
  | EmptyString => ("", s)
  end.

Definition int_part (s : string) : option (string * string) :=
  match s with
  | String c r =>
      if eqb c "0" then Some ("0", r)
      else if is_digit c then Some (digits s)
      else None
  | EmptyString => None
  end.

Definition frac_part (s : string) : option (string * string) :=
  match s with
  | String c r =>
      if eqb c "." then
        match digits r with
        | (EmptyString, _) => None
        | (d, r') => Some (String c d, r')
        end
      else Some ("", s)
  | EmptyString => Some ("", s)
  end.

Definition exp_part (s : string) : option (string * string) :=
  match s with
  | String c r =>
      if eqb c "e" || eqb c "E" then
        let '(sign, r1) :=
          match r with
          | String g r' => if eqb g "+" || eqb g "-" then (String g "", r') else ("", r)
          | EmptyString => ("", r)
          end in
        match digits r1 with
        | (EmptyString, _) => None
        | (d, r') => Some (String c (sign +:+ d), r')
        end
      else Some ("", s)
  | EmptyString => Some ("", s)
  end.

Definition number (s : string) : option (string * string) :=
  let '(sign, s1) :=
    match s with
    | String c r => if eqb c "-" then ("-", r) else ("", s)
    | EmptyString => ("", s)
    end in
  '(i, s2) ← int_part s1;
  '(f, s3) ← frac_part s2;
  '(e, s4) ← exp_part s3;
  Some (sign +:+ i +:+ f +:+ e, s4).

Definition hexval (c : ascii) : option N :=
  if is_digit c then Some (code c - 48)%N
  else if between "a" "f" c then Some (code c - 87)%N
  else if between "A" "F" c then Some (code c - 55)%N
  else None.

Definition unicode4 (s : string) : option (ascii * string) :=
  match s with
  | String a (String b (String c (String d r))) =>
      ha ← hexval a; hb ← hexval b; hc ← hexval c; hd ← hexval d;
      let cp := (((ha * 16 + hb) * 16 + hc) * 16 + hd)%N in
      if (cp <? 128)%N then Some (ascii_of_N cp, r) else None
  | _ => None
  end.

Definition simple_escape (c : ascii) : option ascii :=
  if eqb c quote then Some quote
  else if eqb c backslash then Some backslash
  else if eqb c "/" then Some "/"%char
  else if eqb c "b" then Some "008"%char
  else if eqb c "f" then Some "012"%char
  else if eqb c "n" then Some "010"%char
  else if eqb c "r" then Some "013"%char
  else if eqb c "t" then Some "009"%char
  else None.

(** The text of a string after its opening quote. *)
Fixpoint str_body (fuel : nat) (s : string) : option (string * string) :=
  match fuel with
  | O => None
  | S fuel =>
      match s with
      | EmptyString => None
      | String c r =>
          if eqb c quote then Some ("", r)
          else if eqb c backslash then
            match r with
            | String e r' =>
                if eqb e "u" then
                  '(c', r'') ← unicode4 r';
                  '(t, rest) ← str_body fuel r'';
                  Some (String c' t, rest)
                else
                  c' ← simple_escape e;
                  '(t, rest) ← str_body fuel r';
                  Some (String c' t, rest)
            | EmptyString => None
            end
          else if (code c <? 32)%N then None
          else '(t, rest) ← str_body fuel r; Some (String c t, rest)
      end
  end.

Definition str (s : string) : option (string * string) :=
  str_body (S (String.length s)) s.

Fixpoint value (fuel : nat) (s : string) : option (JSON.t * string) :=
  match fuel with
  | O => None
  | S fuel =>
      match skip_ws s with
      | EmptyString => None
      | String c r =>
          if eqb c "n" then rest ← strip_prefix "ull" r; Some (JSON.Null, rest)
          else if eqb c "t" then rest ← strip_prefix "rue" r; Some (JSON.Bool true, rest)
          else if eqb c "f" then rest ← strip_prefix "alse" r; Some (JSON.Bool false, rest)
          else if eqb c quote then '(t, rest) ← str r; Some (JSON.Str t, rest)
          else if eqb c "[" then
            match skip_ws r with
            | String d r' =>
                if eqb d "]" then Some (JSON.Array [], r')
                else '(items, rest) ← elements fuel r; Some (JSON.Array items, rest)
            | EmptyString => None
            end
          else if eqb c "{" then
            match skip_ws r with
            | String d r' =>
                if eqb d "}" then Some (JSON.Object [], r')
                else '(ms, rest) ← members fuel r; Some (JSON.Object ms, rest)
            | EmptyString => None
            end
          else if eqb c "-" || is_digit c then
            '(lit, rest) ← number (String c r); Some (JSON.Number lit, rest)
          else None
      end
  end
with elements (fuel : nat) (s : string) : option (list JSON.t * string) :=
  match fuel with
  | O => None
  | S fuel =>
      '(v, r) ← value fuel s;
      match skip_ws r with
      | String d r' =>
          if eqb d "," then '(vs, rest) ← elements fuel r'; Some (v :: vs, rest)
          else if eqb d "]" then Some ([v], r')
          else None
      | EmptyString => None
      end
  end
with members (fuel : nat) (s : string) : option (list (string * JSON.t) * string) :=
  match fuel with
  | O => None
  | S fuel =>
      match skip_ws s with
      | String q r =>
          if eqb q quote then
            '(k, r1) ← str r;
            match skip_ws r1 with
            | String d r2 =>
                if eqb d ":" then
                  '(v, r3) ← value fuel r2;
                  match skip_ws r3 with
                  | String e r4 =>
                      if eqb e "," then '(ms, rest) ← members fuel r4; Some ((k, v) :: ms, rest)
                      else if eqb e "}" then Some ([(k, v)], r4)
                      else None
                  | EmptyString => None
                  end
                else None
            | EmptyString => None
            end
          else None
      | EmptyString => None
      end
  end.

Definition scan (s : string) : option (JSON.t * string) :=
  value (2 * String.length s + 2) s.

End Scanner.

(** ** Stand-ins to run the definitions on

    The examples below run the package against these: whole numbers for
    doubles, a URL split into origin and path, cookies that need no
    sanitising, and a [QemuVm] that keeps its JSON. *)

Module Demo.
Import Bytes.

Fixpoint digits_value (acc : Z) (s : string) : option Z :=
  match s with
  | EmptyString => Some acc
  | String c r =>
      if is_digit c then digits_value (10 * acc + Z.of_N (code c - 48)) r else None
  end.

(** Whole literals; the other literals are not read. *)
Definition parse_whole (lit : string) : option Z :=
  match lit with
  | String c r =>
      if eqb c "-" then
        match r with EmptyString => None | _ => Z.opp <$> digits_value 0 r end
      else digits_value 0 lit
  | EmptyString => None
  end.

#[export] Instance whole_floats : Float64 :=
  {| float64 := Z; ParseFloat := parse_whole; Format0f := Itoa |}.

Fixpoint find_slash (s : string) : string * string :=
  match s with
  | EmptyString => ("", "")
  | String c r =>
      if eqb c "/" then ("", s) else let '(a, b) := find_slash r in (String c a, b)
  end.

(** [scheme://host] and the path after it; a text without [://] is all
    path. Control bytes are refused. *)
Fixpoint split_url (s : string) : URL :=
  match s with
  | EmptyString => {| Origin := ""; Path := "" |}
  | String c r =>
      match Scanner.strip_prefix "://" s with
      | Some rest => let '(host, path) := find_slash rest in
                     {| Origin := "://" +:+ host; Path := path |}
      | None => let u := split_url r in
                match Origin u with
                | EmptyString => {| Origin := ""; Path := String c (Path u) |}
                | o => {| Origin := String c o; Path := Path u |}
                end
      end
  end.

Definition parse_url (s : string) : option URL :=
  if all (fun c => (32 <=? code c)%N && negb (code c =? 127)%N) s
  then Some (split_url s) else None.

Fixpoint join_with (sep : string) (l : list string) : string :=
  match l with
  | [] => ""
  | [x] => x
  | x :: r => x +:+ sep +:+ join_with sep r
  end.

Fixpoint print_v (v : any) : string :=
  match v with
  | VNil => "<nil>"
  | VBool b => if b then "true" else "false"
  | VFloat64 f => Itoa f
  | VString s => s
  | VNumber n => n
  | VInt i => Itoa i
  | VSlice items => "[" +:+ join_with " " (map print_v items) +:+ "]"
  | VMap entries =>
      "map[" +:+ join_with " " (map (fun '(k, x) => k +:+ ":" +:+ print_v x) entries) +:+ "]"
  end.

#[export] Instance lib : GoLib :=
  {| url_Parse := parse_url;
     json_scan := Scanner.scan;
     fmt_v := print_v;
     sanitizeCookieName := fun s => s;
     sanitizeCookieValue := fun s => s |}.

(** A [[]QemuVm] that keeps the JSON of its elements. *)
Definition store_items (v : JSON.t) (d : list JSON.t) : list JSON.t * bool :=
  match v with
  | JSON.Null => ([], true)
  | JSON.Array items => (items, true)
  | _ => (d, false)
  end.

#[export] Instance vms : VmSchema := {| QemuVm := JSON.t; store_vms := store_items |}.

(** JSON texts are written with ['] for the double quote. *)
Definition json (s : string) : string :=
  smap (fun c => if eqb c "'" then Scanner.quote else c) s.

(** A server that gives the same answer to every request. *)
Definition always (rt : RoundTrip) : list Request -> Request -> RoundTrip :=
  fun _ _ => rt.

Definition answer (status : Z) (body : string) : RoundTrip :=
  Answer {| StatusCode := status; RespBody := body; BodyFault := false; Cookies := [] |}.

Definition world (c : Client) (now : Z) (srv : list Request -> Request -> RoundTrip) : World :=
  {| cli := c; wire := []; clock := now; server := srv |}.

(** The client that [NewClient] makes for [base], or a client without
    origin when [base] is refused. *)
Definition client (base user secret : string) (tlsCfg useToken : bool) : Client :=
  match NewClient base user secret tlsCfg useToken with
  | Ok c => c
  | Err _ =>
      {| baseURL := {| Origin := ""; Path := "" |}; authMethod := AuthPassword;
         username := ""; password := "";
         httpClient := {| Timeout := 0;
                          Transport := {| TLSClientConfig := {| InsecureSkipVerify := false |} |} |};
         authTicket := ""; csrfToken := ""; authCookie := None; lastLogin := 0;
         loginExpiry := 0 |}
  end.

(** 2026-01-01T00:00:00Z in nanoseconds from the zero Time. *)
Definition t2026 : Z := 63902822400 * time.Second.

Definition noRequest : Request := {| Method := ""; Url := ""; Headers := ∅; Body := None |}.

(** A password-mode client as [NewClient] makes it, one that has logged in
    a minute ago, and a token-mode client. *)
Definition fresh : Client := client "https://pve.example:8006/" "root@pam" "secret" false false.

Definition session : Client :=
  withCredentials fresh
    {| credTicket := "PVE:root@pam:65F1A2B3::sig"; credCSRF := "65F1A2B3:csrf";
       credCookie := None; credLastLogin := t2026 - 60 * time.Second |}.

Definition token : Client :=
  client "https://pve.example:8006/" "root@pam!cli" "5a1e-secret" false true.

(** The login request of the fresh client. *)
Definition loginOfFresh : Request := default noRequest (loginRequest fresh).

(** Servers: one that acknowledges every request with a null payload, one
    that refuses with a text body, one that rejects the login. *)
Definition acknowledging : World := world fresh t2026 (always (answer 200 (json "{'data':null}"))).
Definition forbidding : World := world fresh t2026 (always (answer 403 "Forbidden")).
Definition rejecting : World := world fresh t2026 (always (answer 401 "authentication failure")).
Definition inSession : World := world session t2026 (always (answer 200 (json "{'data':null}"))).
Definition withToken : World := world token t2026 (always (answer 200 (json "{'data':null}"))).

Definition versionRequest : Request :=
  default noRequest (buildRequest fresh "GET" "/api2/json/version" None [] false).

(** The entries of a decode target that holds a map. *)
Definition entries (t : option gomap) : option (list (string * any)) :=
  m ← t; m ← m; Some (map_to_list m).

(** A decode target that already holds an entry. *)
Definition heldMap : gomap := Some {["name" := VString "old"]}.

(** The envelope of the spec's example. *)
Definition vmEnvelope : Response :=
  {| StatusCode := 200; RespBody := json "{'data': {'vmid': 100, 'name': 'test'}}";
     BodyFault := false; Cookies := [] |}.

Definition rawConfig : gomap :=
  Some (<["name" := VString "vm1"]> (<["memory" := VFloat64 2048]>
       (<["cores" := VString "4"]> (<["net0" := VString "virtio,bridge=vmbr0"]> ∅)))).

Definition testRun : list (Z * Op) :=
  [(t2026, OpLogin);
   (t2026 + 1, OpCreateVM "pve" 100 (Some emptyConfig));
   (t2026 + 2, OpStartVM "pve" 100);
   (t2026 + 3, OpGetVMConfig "pve" 100);
   (t2026 + 4, OpListVMs "pve" true);
   (t2026 + 5, OpStopVM "pve" 100)].

End Demo.

(** ** strconv: ParseUint and ParseInt in base 10

    The scan of [strconv.ParseUint] with its two overflow tests, and the
    sign and range tests of [strconv.ParseInt]. A result is the number
    returned and the error, if any. *)

Module strconv.
Import Bytes.

Inductive NumError := ErrSyntax | ErrRange.

Definition maxUint64 : Z := 2 ^ 64 - 1.

(** The loop of [ParseUint] over the bytes of [s], from [n]. *)
Fixpoint scan (maxVal : Z) (n : Z) (s : string) : Z * option NumError :=
  match s with
  | EmptyString => (n, None)
  | String c r =>
      if is_digit c then
        let d := Z.of_N (code c - 48) in
        if maxUint64 / 10 + 1 <=? n then (maxVal, Some ErrRange)   (* n*base overflows *)
        else
          let n := n * 10 in
          let n1 := (n + d) mod 2 ^ 64 in
          if (n1 <? n) || (maxVal <? n1) then (maxVal, Some ErrRange)   (* n+d overflows *)
          else scan maxVal n1 r
      else (0, Some ErrSyntax)
  end.

Definition ParseUint (s : string) (bitSize : Z) : Z * option NumError :=
  match s with
  | EmptyString => (0, Some ErrSyntax)
  | _ => scan (2 ^ bitSize - 1) 0 s
  end.

Definition ParseInt (s : string) (bitSize : Z) : Z * option NumError :=
  match s with
  | EmptyString => (0, Some ErrSyntax)
  | String c r =>
      (* Pick off leading sign. *)
      let '(neg, s) :=
        if eqb c "+" then (false, r) else if eqb c "-" then (true, r) else (false, s) in
      (* Convert unsigned and check range. *)
      match ParseUint s bitSize with
      | (_, Some ErrSyntax) => (0, Some ErrSyntax)
      | (un, _) =>
          let cutoff := 2 ^ (bitSize - 1) in
          if negb neg && (cutoff <=? un) then (cutoff - 1, Some ErrRange)
          else if neg && (cutoff <? un) then (- cutoff, Some ErrRange)
          else (if neg then - un else un, None)
      end
  end.

End strconv.

(** ** internal/type_helper *)

Module type_helper.
Import Bytes.

(** ['0' + byte(x)] *)
Definition digitByte (x : Z) : ascii := ascii_of_N (Z.to_N ((48 + x mod 256) mod 256)).

(** The loop of [String]: [buf] is the array of eleven bytes, written at
    [pos]; a write outside the array panics ([None]). The loop has no
    bound of its own: it runs until the quotient is zero or a write
    panics, which twelve rounds always reach. *)
Fixpoint String_loop (fuel : nat) (buf : list ascii) (pos i : Z) (signed : bool)
    : option string :=
  match fuel with
  | O => None
  | S fuel =>
      let pos := pos - 1 in
      let q := Z.quot i 10 in
      if (pos <? 0) || (Z.of_nat (length buf) <=? pos) then None
      else
        let buf := <[Z.to_nat pos := digitByte (i - 10 * q)]> buf in
        let i := q in
        if i =? 0 then
          if signed then
            let pos := pos - 1 in
            if (pos <? 0) || (Z.of_nat (length buf) <=? pos) then None
            else
              let buf := <[Z.to_nat pos := "-"%char]> buf in
              Some (string_of_list_ascii (drop (Z.to_nat pos) buf))
          else Some (string_of_list_ascii (drop (Z.to_nat pos) buf))
        else String_loop fuel buf pos i signed
  end.

(** [String(n int32)]; [n] is the value of the int32. *)
Definition String (n : Z) : option string :=
  let buf := replicate 11 zero in
  let pos := Z.of_nat (length buf) in
  let i := n in
  let signed := i <? 0 in
  let i := if signed then - i else i in
  String_loop 12 buf pos i signed.

(** The conversion of an integer to a signed type of [bits] bits: the low
    bits, read as a signed number. *)
Definition wrap (bits : Z) (x : Z) : Z := (x + 2 ^ (bits - 1)) mod 2 ^ bits - 2 ^ (bits - 1).

(** The error of [Int64ToInt]; its [Err] stays nil. *)
Record Int64OverflowError := { Value : Z; Msg : string }.

(** [Int64ToInt]; [intSize] is the width of [int] and [uint] on the
    platform, 32 or 64. *)
Definition Int64ToInt (intSize : Z) (value : Z) : Z * option Int64OverflowError :=
  let maxInt := wrap 64 (Z.shiftr (2 ^ intSize - 1) 1) in   (* int64(^uint(0) >> 1) *)
  let minInt := - maxInt - 1 in
  if (maxInt <? value) || (value <? minInt)
  then (0, Some {| Value := value; Msg := "int64 value overflows int" |})
  else (wrap intSize value, None).

Definition ParseInt32 (s : string) : Z * option strconv.NumError :=
  match strconv.ParseInt s 32 with
  | (_, Some err) => (0, Some err)
  | (intValue, None) => (wrap 32 intValue, None)
  end.

Definition ParseInt64 (s : string) : Z * option strconv.NumError :=
  match strconv.ParseInt s 64 with
  | (_, Some err) => (0, Some err)
  | (intValue, None) => (intValue, None)
  end.

End type_helper.

(** ** LXC containers (part_000 and the file of [CreateLXCContainer]) *)

Record LxcContainer := {
  lxcNode : string;
  lxcVmId : Z;
  lxcHostname : string;
  lxcPassword : string;
  lxcOsTemplate : string;
  lxcStorage : string;
  lxcRootFsSize : string;
  lxcMemory : Z;
  lxcSwap : Z;
  lxcCores : Z;
  lxcCpuLimit : Z;
  lxcCpuUnits : Z;
  lxcNet0 : string;
  lxcBridge : string;
  lxcNameserver : string;
  lxcSearchdomain : string;
  lxcPool : string;
  lxcDescription : string;
  lxcUnprivileged : string;
  lxcStart : string;
  lxcBwLimit : Z;
  lxcArch : string;
  lxcCmode : string;
  lxcConsole : string;
  lxcDebug : Z;
  lxcFeatures : string;
  lxcStartup : string;
  lxcTags : string;
  lxcSshPublicKeys : list string;
}.

(** What a call that may end the process comes to. *)
Inductive outcome (A : Type) :=
| Returned (a : A)
| Exited (code : Z).

Arguments Returned {_} a.
Arguments Exited {_} code.

Definition newline : string := String "010" "".

(** [ParseSshPublicKeySlice]; [None] is the error "empty slice: no ssh keys
    provided". *)
Definition ParseSshPublicKeySlice (keys : list string) : option string :=
  if (length keys <? 1)%nat then None
  else match keys with
  | [key] => Some key
  | _ =>
      let lastSshKey := (length keys - 1)%nat in
      let lastSshKeyItem := default "" (keys !! lastSshKey) in
      let allButLastKey := take lastSshKey keys in
      let sshKeysParam := foldl (fun sb value => sb +:+ value +:+ newline) "" allButLastKey in
      Some (sshKeysParam +:+ lastSshKeyItem)
  end.

(** [if n != 0 { params[k] = fmt.Sprintf("%d", n) }] *)
Definition setIfNonzero (k : string) (n : Z) (params : gmap string string) : gmap string string :=
  if negb (n =? 0) then <[k := Bytes.Itoa n]> params else params.

Definition ToFormParams (lxc : LxcContainer) : outcome (gmap string string) :=
  let params := (∅ : gmap string string) in
  let params := setIfNonzero "vmid" (lxcVmId lxc) params in
  let params := setIf "hostname" (lxcHostname lxc) params in
  let params := setIf "password" (lxcPassword lxc) params in
  let params := setIf "ostemplate" (lxcOsTemplate lxc) params in
  let afterKeys (params : gmap string string) : gmap string string :=
    let params := setIf "storage" (lxcStorage lxc) params in
    let params :=
      if negb (lxcRootFsSize lxc =? "")%string && negb (lxcStorage lxc =? "")%string
      then <["rootfs" := lxcStorage lxc +:+ ":" +:+ lxcRootFsSize lxc]> params else params in
    let params := setIfNonzero "memory" (lxcMemory lxc) params in
    let params := setIfNonzero "swap" (lxcSwap lxc) params in
    let params := setIfNonzero "cores" (lxcCores lxc) params in
    let params := setIfNonzero "cpulimit" (lxcCpuLimit lxc) params in
    let params := setIfNonzero "cpuunits" (lxcCpuUnits lxc) params in
    let params := setIf "net0" (lxcNet0 lxc) params in
    let params := setIf "arch" (lxcArch lxc) params in
    let params := setIf "cmode" (lxcCmode lxc) params in
    let params := setIf "start" (lxcStart lxc) params in
    let params := setIf "console" (lxcConsole lxc) params in
    setIf "unprivileged" (lxcUnprivileged lxc) params in
  if (1 <=? length (lxcSshPublicKeys lxc))%nat then
    match ParseSshPublicKeySlice (lxcSshPublicKeys lxc) with
    | None => Exited 1
    | Some keysString => Returned (afterKeys (<["ssh-public-keys" := keysString]> params))
    end
  else Returned (afterKeys params).

Inductive lxcError :=
| LxcNewRequest                 (* from http.NewRequest *)
| LxcTransport (msg : string)   (* from http.DefaultClient.Do *)
| LxcStatus (status : Z).       (* "Proxmox API error: %s" *)

Section CreateLXC.
Context `{GoLib}.

(** [params] is any map from strings to strings; [form.Set] copies it entry
    by entry. The client of the call is [http.DefaultClient]: the client of
    the world plays no part. *)
Definition CreateLXCContainer (host token node : string) (params : gmap string string)
    : M (option lxcError) :=
  let apiURL := host +:+ "/api2/json/nodes/" +:+ node +:+ "/lxc" in
  let form := map_fold (fun k v (form : gmap string string) => <[k := v]> form) ∅ params in
  match NewRequestWithContext "POST" apiURL (Some (Values_Encode form)) with
  | None => ret (Some LxcNewRequest)
  | Some req =>
      let req := setHeader req "Authorization" ("PVEAPIToken=" +:+ token) in
      let req := setHeader req "Content-Type" "application/x-www-form-urlencoded" in
      let* rt := httpDo req in
      match rt with
      | NetError msg => ret (Some (LxcTransport msg))
      | Answer resp =>
          if negb (StatusCode resp =? 200) then ret (Some (LxcStatus (StatusCode resp)))
          else ret None
      end
  end.

End CreateLXC.

(** ** Vocabulary of the statements *)

(** The requests a computation puts on the wire. *)
Definition sent {A} (m : M A) (w : World) : list Request :=
  drop (length (wire w)) (wire (m w).2).

(** The world with other credentials in the client. *)
Definition reCred (w : World) (k : Credentials) : World :=
  {| cli := withCredentials (cli w) k; wire := wire w; clock := clock w; server := server w |}.

(** The member that fills a field named [name]: the last one whose key is
    the name up to case. *)
Definition member (name : string) (ms : list (string * JSON.t)) : option JSON.t :=
  snd <$> last (filter (fun kv => equalFold kv.1 name = true) ms).

(** The value a map gets under the key [k]: that of the last member with
    this very key. *)
Definition member_exact (k : string) (ms : list (string * JSON.t)) : option JSON.t :=
  snd <$> last (filter (fun kv => kv.1 = k) ms).

(** The JSON values that do not fit a map: all but null and objects. *)
Definition mismatch (v : JSON.t) : bool :=
  match v with
  | JSON.Null | JSON.Object _ => false
  | _ => true
  end.

(** The bytes that end or split a path segment. *)
Definition separator (c : ascii) : bool := Bytes.mem c "/?#;, ".

(** What a request of a resource operation looks like on the wire: it asks
    for JSON, or it is a GET. *)
Definition resourceRequest (req : Request) : Prop :=
  Header.Get (Headers req) "Accept" = "application/json" ∨ Method req = "GET".


(** The digits of [i] before [acc], most significant first, as the loop
    of [type_helper.String] writes them from the right. *)
Fixpoint digits_before (fuel : nat) (i : Z) (acc : list ascii) : list ascii :=
  match fuel with
  | O => acc
  | S fuel =>
      let acc := type_helper.digitByte (i mod 10) :: acc in
      if i / 10 =? 0 then acc else digits_before fuel (i / 10) acc
  end.

(** The keys that [ToFormParams] can set. *)
Definition formKeys : list string :=
  ["vmid"; "hostname"; "password"; "ostemplate"; "ssh-public-keys"; "storage"; "rootfs";
   "memory"; "swap"; "cores"; "cpulimit"; "cpuunits"; "net0"; "arch"; "cmode"; "start";
   "console"; "unprivileged"].

(** The keys that [ParseQemuVmConfig] maps to typed fields. *)
Definition typedKeys : list string := ["name"; "memory"; "sockets"; "cores"; "description"].

(** The skip-verification setting of a client's transport. *)
Definition skipsVerify (c : Client) : bool :=
  InsecureSkipVerify (TLSClientConfig (Transport (httpClient c))).

(** Credentials are invalid when there is no ticket or the last login is
    [loginExpiry] or more ago. *)
Definition credInvalid (c : Client) (now : Z) : Prop :=
  authTicket c = "" ∨ loginExpiry c <= now - lastLogin c.

(** The authentication a token-mode request carries: the static token in
    the Authorization header, and neither cookie nor CSRF token. *)
Definition tokenAuthOnly (c : Client) (req : Request) : Prop :=
  Header.Get (Headers req) "Authorization" = "PVEAPIToken=" +:+ username c +:+ "=" +:+ password c
  ∧ Header.Get (Headers req) "Cookie" = ""
  ∧ Header.Get (Headers req) "CSRFPreventionToken" = "".

(** A computation that, run by a token-mode client, neither reads nor
    writes the credential state: with other credentials in the client it
    returns the same value and sends the same requests, it leaves the
    client as it was, and what it sends is authenticated by the token
    alone. *)
Definition tokenBlind {A} (m : M A) : Prop :=
  ∀ w k, authMethod (cli w) = AuthToken →
    m (reCred w k) = ((m w).1, reCred (m w).2 k)
    ∧ cli (m w).2 = cli w
    ∧ ∃ l, wire (m w).2 = wire w ++ l ∧ Forall (tokenAuthOnly (cli w)) l.

(** ** Further stand-ins

    Answers and requests for the statements about the rest of the
    package. *)

Module Cases.
Import Demo.

(** The answer of a server that grants the login. *)
Definition grant : Response :=
  {| StatusCode := 200;
     RespBody := json "{'data':{'username':'root@pam','ticket':'PVE:root@pam:65F1A2B3::sig','CSRFPreventionToken':'65F1A2B3:csrf'}}";
     BodyFault := false; Cookies := [] |}.

(** An answer without a data member, the null payload, and the task
    identifier that Proxmox returns for a start. *)
Definition bare : Response :=
  {| StatusCode := 200; RespBody := "{}"; BodyFault := false; Cookies := [] |}.

Definition nullData : Response :=
  {| StatusCode := 200; RespBody := json "{'data':null}"; BodyFault := false; Cookies := [] |}.

Definition task : Response :=
  {| StatusCode := 200; RespBody := json "{'data':'UPID:pve:0001A2B3:qmstart:100:root@pam:'}";
     BodyFault := false; Cookies := [] |}.

Definition refusal : Response :=
  {| StatusCode := 403; RespBody := "Forbidden"; BodyFault := false; Cookies := [] |}.

Definition granting : World := world fresh t2026 (always (Answer grant)).
Definition silent : World := world fresh t2026 (always (Answer bare)).
Definition queueing : World := world session t2026 (always (Answer task)).

Definition only (l : list Request) : Request := default noRequest (head l).

Definition configRequest : Request := only (sent (GetVMConfig "pve" 100) acknowledging).
Definition startRequest : Request := only (sent (StartVM "pve" 100) queueing).
Definition createRequest : Request :=
  only (sent (CreateVM "pve" 100 (Some emptyConfig)) acknowledging).
Definition createInSession : Request :=
  only (sent (CreateVM "pve" 100 (Some emptyConfig)) (Login granting).2).
Definition listRequest : Request := only (sent (ListVMs "pve" false) forbidding).

Definition textRequest : Request :=
  default noRequest
    (buildRequest session "GET" "/api2/json/version" None ([] ++ [("Accept", "text/plain")]) false).

Definition lxcParams : gmap string string := {["hostname" := "ct1"]}.

Definition lxcRequest : Request :=
  only (sent (CreateLXCContainer "https://pve.example:8006" "root@pam!cli=5a1e-secret" "pve"
                lxcParams) acknowledging).

End Cases.

(** * Theorems *)

(** Two header names that differ after canonicalisation. *)
Ltac canon_ne := let E := fresh in intros E; vm_compute in E; discriminate E.

Section Facts.
Context `{GoLib} `{VmSchema}.

(** ** The monad *)

Lemma sent_ret {A} (a : A) w : sent (ret a) w = [].
Proof. unfold sent, ret; simpl. by rewrite drop_all. Qed.

Lemma sent_httpDo req w : sent (httpDo req) w = [req].
Proof. unfold sent, httpDo; simpl. by rewrite drop_app_length. Qed.

Lemma sent_pushWire {A} (m : M A) w req : (m w).2 = pushWire w req → sent m w = [req].
Proof. unfold sent. intros ->. simpl. by rewrite drop_app_length. Qed.

Lemma sent_same {A} (m : M A) w : (m w).2 = w → sent m w = [].
Proof. unfold sent. intros ->. by rewrite drop_all. Qed.

(** ** Strings *)

Lemma length_app (a b : string) :
  String.length (a +:+ b) = (String.length a + String.length b)%nat.
Proof. induction a as [|c a IH]; simpl; [done|]. by rewrite IH. Qed.

Lemma app_inj_r (b x y : string) : x +:+ b = y +:+ b → x = y.
Proof.
  revert y. induction x as [|c x IH]; intros [|d y]; simpl; intros E.
  - done.
  - apply (f_equal String.length) in E. rewrite !length_app in E. simpl in E. lia.
  - apply (f_equal String.length) in E. rewrite !length_app in E. simpl in E. lia.
  - injection E as -> E. f_equal. by apply IH.
Qed.

Lemma all_app p (a b : string) : Bytes.all p (a +:+ b) = Bytes.all p a && Bytes.all p b.
Proof. induction a as [|c a IH]; simpl; [done|]. by rewrite IH, andb_assoc. Qed.

(** ** Escaping *)

Lemma escape_byte_segment_safe c :
  Bytes.all (fun c => negb (separator c)) (URLEscape.escape_byte URLEscape.encodePathSegment c)
  = true.
Proof. destruct c as [[] [] [] [] [] [] [] []]; vm_compute; reflexivity. Qed.

(** An escaped segment holds no separator: it stays one segment. *)
Lemma PathEscape_safe s :
  Bytes.all (fun c => negb (separator c)) (URLEscape.PathEscape s) = true.
Proof.
  unfold URLEscape.PathEscape. induction s as [|c s IH]; [done|].
  cbn [URLEscape.escape]. by rewrite all_app, escape_byte_segment_safe, IH.
Qed.

(** ** Headers *)

Lemma Get_Set_eq h k v : Header.Get (Header.Set_ h k v) k = v.
Proof. unfold Header.Get, Header.Set_. by rewrite lookup_insert_eq. Qed.

Lemma Get_Set_ne h k k' v :
  Header.CanonicalMIMEHeaderKey k ≠ Header.CanonicalMIMEHeaderKey k' →
  Header.Get (Header.Set_ h k v) k' = Header.Get h k'.
Proof. intros Hne. unfold Header.Get, Header.Set_. by rewrite lookup_insert_ne. Qed.

Lemma Get_empty k : Header.Get ∅ k = "".
Proof. unfold Header.Get. by rewrite lookup_empty. Qed.

Lemma Get_setHeader_eq req k v : Header.Get (Headers (setHeader req k v)) k = v.
Proof. apply Get_Set_eq. Qed.

Lemma Get_setHeader_ne req k k' v :
  Header.CanonicalMIMEHeaderKey k ≠ Header.CanonicalMIMEHeaderKey k' →
  Header.Get (Headers (setHeader req k v)) k' = Header.Get (Headers req) k'.
Proof. apply Get_Set_ne. Qed.

Lemma Get_AddCookie_ne req ck k' :
  Header.CanonicalMIMEHeaderKey "Cookie" ≠ Header.CanonicalMIMEHeaderKey k' →
  Header.Get (Headers (AddCookie req ck)) k' = Header.Get (Headers req) k'.
Proof.
  intros Hne. unfold AddCookie.
  destruct (Header.Get (Headers req) "Cookie" =? "")%string; by apply Get_setHeader_ne.
Qed.



Lemma NewRequest_Some method url body req :
  NewRequestWithContext method url body = Some req →
  Url req = url ∧ Headers req = ∅ ∧ Body req = body.
Proof.
  unfold NewRequestWithContext.
  destruct (negb _); [done|]. destruct (url_Parse url); [|done]. by intros [= <-].
Qed.

(** ** The request pipeline *)

Lemma do_eq {T} `{Target T} method path body headers csrf (out : option T) w :
  do method path body headers csrf out w =
  match buildRequest (cli w) method path body headers csrf with
  | None => ((out, Some ErrNewRequest), w)
  | Some req =>
      (match server w (wire w) req with
       | NetError msg => (out, Some (ErrTransport msg))
       | Answer resp => unwrap resp out
       end, pushWire w req)
  end.
Proof.
  unfold do, bind, getClient. simpl.
  destruct (buildRequest _ _ _ _ _ _); [|done].
  unfold httpDo. by destruct (server w (wire w) r).
Qed.

Lemma do_sent {T} `{Target T} method path body headers csrf (out : option T) w :
  sent (do method path body headers csrf out) w =
  match buildRequest (cli w) method path body headers csrf with
  | None => []
  | Some req => [req]
  end.
Proof.
  destruct (buildRequest _ _ _ _ _ _) eqn:Hb.
  - apply sent_pushWire. by rewrite do_eq, Hb.
  - apply sent_same. by rewrite do_eq, Hb.
Qed.

Lemma do_cli {T} `{Target T} method path body headers csrf (out : option T) w :
  cli (do method path body headers csrf out w).2 = cli w.
Proof. rewrite do_eq. by destruct (buildRequest _ _ _ _ _ _). Qed.

Lemma buildRequest_Some c method path body headers csrf req :
  buildRequest c method path body headers csrf = Some req →
  ∃ req0,
    NewRequestWithContext method
      (URL_String (withPath (baseURL c) (Bytes.TrimRight (Path (baseURL c)) "/" +:+ path)))
      body = Some req0 ∧
    req = foldl (fun req '(k, v) => setHeader req k v)
            (setHeader (attachAuth c csrf req0) "Accept" "application/json") headers.
Proof.
  unfold buildRequest. destruct (NewRequestWithContext _ _ _) as [req0|]; [|done].
  intros [= <-]. by exists req0.
Qed.

Lemma attachAuth_csrf c csrf req :
  authMethod c = AuthPassword →
  Header.Get (Headers (attachAuth c csrf req)) "CSRFPreventionToken" =
  if csrf && negb (csrfToken c =? "")%string then csrfToken c
  else Header.Get (Headers req) "CSRFPreventionToken".
Proof.
  intros Hpw. unfold attachAuth. rewrite Hpw.
  destruct (csrf && negb (csrfToken c =? "")%string);
    (destruct (authCookie c);
     [rewrite Get_AddCookie_ne by canon_ne
     |destruct (negb (authTicket c =? "")%string);
      [rewrite Get_setHeader_ne by canon_ne|]]);
    first [apply Get_setHeader_eq | reflexivity].
Qed.

Lemma attachAuth_token_csrf c csrf req :
  authMethod c = AuthToken →
  Header.Get (Headers (attachAuth c csrf req)) "CSRFPreventionToken" =
  Header.Get (Headers req) "CSRFPreventionToken".
Proof.
  intros Htok. unfold attachAuth. rewrite Htok. by rewrite Get_setHeader_ne by canon_ne.
Qed.

(** The CSRF header of the request that [do] builds when the caller's
    headers are none or the form content type. *)
Lemma buildRequest_csrf c method path body headers csrf req :
  headers = [] ∨ headers = [("Content-Type", "application/x-www-form-urlencoded")] →
  buildRequest c method path body headers csrf = Some req →
  Header.Get (Headers req) "CSRFPreventionToken" =
  match authMethod c with
  | AuthToken => ""
  | AuthPassword => if csrf && negb (csrfToken c =? "")%string then csrfToken c else ""
  end.
Proof.
  intros Hh (req0 & Hreq0 & ->)%buildRequest_Some.
  apply NewRequest_Some in Hreq0 as (_ & Hempty & _).
  assert (Header.Get (Headers (setHeader (attachAuth c csrf req0) "Accept" "application/json"))
            "CSRFPreventionToken" =
          match authMethod c with
          | AuthToken => ""
          | AuthPassword => if csrf && negb (csrfToken c =? "")%string then csrfToken c else ""
          end) as Hbase.
  { rewrite Get_setHeader_ne by canon_ne.
    destruct (authMethod c) eqn:Hm.
    - rewrite attachAuth_csrf by done. rewrite Hempty, Get_empty.
      by destruct (csrf && _).
    - rewrite attachAuth_token_csrf by done. by rewrite Hempty, Get_empty. }
  destruct Hh as [-> | ->]; cbn [foldl]; [exact Hbase|].
  rewrite Get_setHeader_ne by canon_ne. exact Hbase.
Qed.

(** ** The resource operations send what [do] sends *)

Lemma StartVM_world node vmid w :
  (StartVM node vmid w).2 =
  (do "POST" (apiNodesPath +:+ "/" +:+ URLEscape.PathEscape node +:+ "/qemu/"
              +:+ Bytes.Itoa vmid +:+ apiVmStartSubPath) None [] false (Some (None : gomap)) w).2.
Proof. unfold StartVM, bind. by destruct (do _ _ _ _ _ _ w) as [[? [?|]] ?]. Qed.

Lemma StopVM_world node vmid w :
  (StopVM node vmid w).2 =
  (do "POST" (apiNodesPath +:+ "/" +:+ URLEscape.PathEscape node +:+ "/qemu/"
              +:+ Bytes.Itoa vmid +:+ apiVmStopSubPath) None [] false (Some (None : gomap)) w).2.
Proof. unfold StopVM, bind. by destruct (do _ _ _ _ _ _ w) as [[? [?|]] ?]. Qed.

Lemma GetVMConfig_world node vmid w :
  (GetVMConfig node vmid w).2 =
  (do "GET" (apiNodesPath +:+ "/" +:+ URLEscape.PathEscape node +:+ "/qemu/"
             +:+ Bytes.Itoa vmid +:+ "/config") None [] false (Some (None : gomap)) w).2.
Proof. unfold GetVMConfig, bind. by destruct (do _ _ _ _ _ _ w) as [[? [?|]] ?]. Qed.

Lemma CreateVM_world node vmid cfg w :
  0 < vmid →
  (CreateVM node vmid (Some cfg) w).2 =
  (do "POST" (apiNodesPath +:+ "/" +:+ URLEscape.PathEscape node +:+ "/qemu")
      (Some (Values_Encode (<["vmid" := Bytes.Itoa vmid]> (ToParams cfg))))
      [("Content-Type", "application/x-www-form-urlencoded")] true (@None gomap) w).2.
Proof.
  intros Hpos. unfold CreateVM, bind.
  destruct (Z.leb_spec vmid 0); [lia|]. by destruct (do _ _ _ _ _ _ w).
Qed.

Lemma UpdateVMConfig_world node vmid cfg w :
  (UpdateVMConfig node vmid (Some cfg) w).2 =
  (do "PUT" (apiNodesPath +:+ "/" +:+ URLEscape.PathEscape node +:+ "/qemu/"
             +:+ Bytes.Itoa vmid +:+ "/config")
      (Some (Values_Encode (ToParams cfg)))
      [("Content-Type", "application/x-www-form-urlencoded")] true (@None gomap) w).2.
Proof. unfold UpdateVMConfig, bind. by destruct (do _ _ _ _ _ _ w). Qed.

Lemma sent_ext {A B} (m : M A) (m' : M B) w : (m w).2 = (m' w).2 → sent m w = sent m' w.
Proof. unfold sent. by intros ->. Qed.

(** ** CSRF attachment *)

Lemma do_csrf {T} `{Target T} method path body headers csrf (out : option T) w :
  headers = [] ∨ headers = [("Content-Type", "application/x-www-form-urlencoded")] →
  Forall (fun req =>
            Header.Get (Headers req) "CSRFPreventionToken" =
            match authMethod (cli w) with
            | AuthToken => ""
            | AuthPassword =>
                if csrf && negb (csrfToken (cli w) =? "")%string then csrfToken (cli w) else ""
            end)
         (sent (do method path body headers csrf out) w).
Proof.
  intros Hh. rewrite do_sent.
  destruct (buildRequest _ _ _ _ _ _) eqn:Hb; [|done].
  constructor; [|done]. by eapply buildRequest_csrf.
Qed.

(** C3 (the code departs from the claim). [StartVM] and [StopVM] call the
    pipeline without CSRF attachment: in password mode the request they
    send carries no CSRFPreventionToken header, whatever the CSRF token of
    the client is. *)
Theorem StartVM_StopVM_send_no_csrf w node vmid :
  authMethod (cli w) = AuthPassword →
  Forall (fun req => Header.Get (Headers req) "CSRFPreventionToken" = "")
         (sent (StartVM node vmid) w ++ sent (StopVM node vmid) w).
Proof.
  intros Hpw. apply Forall_app. split.
  - rewrite (sent_ext _ _ _ (StartVM_world node vmid w)).
    eapply Forall_impl; [apply do_csrf; by left|].
    intros req. simpl. by rewrite Hpw.
  - rewrite (sent_ext _ _ _ (StopVM_world node vmid w)).
    eapply Forall_impl; [apply do_csrf; by left|].
    intros req. simpl. by rewrite Hpw.
Qed.

(** X25. The sibling paths: [CreateVM] and [UpdateVMConfig] do attach the
    token in password mode, and no operation attaches it in token mode. *)
Lemma CreateVM_UpdateVMConfig_csrf w node vmid cfg :
  0 < vmid →
  Forall (fun req =>
            Header.Get (Headers req) "CSRFPreventionToken" =
            match authMethod (cli w) with
            | AuthToken => ""
            | AuthPassword => csrfToken (cli w)
            end)
         (sent (CreateVM node vmid (Some cfg)) w ++ sent (UpdateVMConfig node vmid (Some cfg)) w).
Proof.
  intros Hpos. apply Forall_app. split.
  - rewrite (sent_ext _ _ _ (CreateVM_world node vmid cfg w Hpos)).
    eapply Forall_impl; [apply do_csrf; by right|].
    intros req. simpl. intros ->. destruct (authMethod _); [|done].
    by destruct (csrfToken _).
  - rewrite (sent_ext _ _ _ (UpdateVMConfig_world node vmid cfg w)).
    eapply Forall_impl; [apply do_csrf; by right|].
    intros req. simpl. intros ->. destruct (authMethod _); [|done].
    by destruct (csrfToken _).
Qed.

(** ** Path building *)





Lemma ListVMs_world node full w :
  (ListVMs node full w).2 =
  match NewRequestWithContext "GET" (listVMsURL (cli w) node full) None with
  | None => w
  | Some req => pushWire w (listVMsAuth (cli w) req)
  end.
Proof.
  unfold ListVMs, bind, getClient. simpl.
  destruct (NewRequestWithContext _ _ _) as [req|]; [|done].
  unfold httpDo. destruct (server w (wire w) _) as [resp|]; [|done].
  destruct (negb _); [done|]. destruct (json_first _ _); [|done].
  by destruct (store_struct _ _ _) as [? []].
Qed.

Lemma ListVMs_sent node full w :
  sent (ListVMs node full) w =
  match NewRequestWithContext "GET" (listVMsURL (cli w) node full) None with
  | None => []
  | Some req => [listVMsAuth (cli w) req]
  end.
Proof.
  pose proof (ListVMs_world node full w) as Hw.
  destruct (NewRequestWithContext _ _ _); [by apply sent_pushWire | by apply sent_same].
Qed.

Lemma listVMsAuth_Url c req : Url (listVMsAuth c req) = Url req.
Proof. unfold listVMsAuth. by destruct (authMethod c). Qed.

Lemma listVMsURL_inj c node node' full :
  listVMsURL c node full = listVMsURL c node' full → node = node'.
Proof.
  unfold listVMsURL. intros E.
  apply String.app_inj in E. apply String.app_inj in E. by apply app_inj_r in E.
Qed.

(** C8 (the code departs from the claim). [ListVMs] writes the node name
    into its URL as it is given: the request it sends goes to the URL
    formatted from the raw name, which is not the URL of the escaped name
    as soon as escaping changes the name. *)
Theorem ListVMs_sends_raw_node w node full :
  Forall (fun req =>
            Url req = listVMsURL (cli w) node full ∧
            (URLEscape.PathEscape node ≠ node →
             Url req ≠ listVMsURL (cli w) (URLEscape.PathEscape node) full))
         (sent (ListVMs node full) w).
Proof.
  rewrite ListVMs_sent.
  destruct (NewRequestWithContext _ _ _) as [req|] eqn:Hreq; [|done].
  apply NewRequest_Some in Hreq as (Hurl & _ & _).
  constructor; [|done]. rewrite listVMsAuth_Url, Hurl. split; [done|].
  intros Hne E. apply listVMsURL_inj in E. by apply Hne.
Qed.


(** ** Token mode *)

Lemma tokenBlind_ret {A} (a : A) : tokenBlind (ret a).
Proof.
  intros w k _. split_and!; [done..|]. exists []. by rewrite app_nil_r.
Qed.

Lemma tokenBlind_bind {A B} (m : M A) (f : A → M B) :
  tokenBlind m → (∀ a, tokenBlind (f a)) → tokenBlind (bind m f).
Proof.
  intros Hm Hf w k Htok. unfold bind.
  destruct (Hm w k Htok) as (E1 & Hc1 & l1 & Hw1 & Hl1).
  rewrite E1. destruct (m w) as [a w1]. simpl in *.
  assert (authMethod (cli w1) = AuthToken) as Htok1 by by rewrite Hc1.
  destruct (Hf a w1 k Htok1) as (E2 & Hc2 & l2 & Hw2 & Hl2).
  rewrite E2. destruct (f a w1) as [b w2]. simpl in *.
  split_and!; [done|congruence|].
  exists (l1 ++ l2). split.
  - by rewrite Hw2, Hw1, app_assoc.
  - apply Forall_app. split; [done|]. by rewrite <- Hc1.
Qed.

Lemma tokenBlind_setClock t : tokenBlind (setClock t).
Proof.
  intros w k _. split_and!; [done..|]. exists []. by rewrite app_nil_r.
Qed.

Lemma tokenBlind_Login : tokenBlind Login.
Proof.
  intros w k Htok. unfold Login, bind, getClient. simpl. rewrite Htok.
  split_and!; [done..|]. exists []. by rewrite app_nil_r.
Qed.

Lemma buildRequest_token c k method path body headers csrf :
  authMethod c = AuthToken →
  buildRequest (withCredentials c k) method path body headers csrf =
  buildRequest c method path body headers csrf.
Proof. intros Htok. unfold buildRequest, attachAuth. simpl. by rewrite Htok. Qed.

Lemma buildRequest_tokenAuthOnly c method path body headers csrf req :
  authMethod c = AuthToken →
  headers = [] ∨ headers = [("Content-Type", "application/x-www-form-urlencoded")] →
  buildRequest c method path body headers csrf = Some req →
  tokenAuthOnly c req.
Proof.
  intros Htok Hh Hb. unfold tokenAuthOnly.
  pose proof (buildRequest_csrf _ _ _ _ _ _ _ Hh Hb) as Hcsrf. rewrite Htok in Hcsrf.
  split_and!; [| |done];
    apply buildRequest_Some in Hb as (req0 & Hreq0 & ->);
    apply NewRequest_Some in Hreq0 as (_ & Hempty & _);
    unfold attachAuth; rewrite Htok.
  - destruct Hh as [-> | ->]; cbn [foldl];
      rewrite ?(Get_setHeader_ne _ "Content-Type") by canon_ne;
      rewrite (Get_setHeader_ne _ "Accept") by canon_ne;
      apply Get_setHeader_eq.
  - destruct Hh as [-> | ->]; cbn [foldl];
      rewrite ?(Get_setHeader_ne _ "Content-Type") by canon_ne;
      rewrite (Get_setHeader_ne _ "Accept") by canon_ne;
      rewrite (Get_setHeader_ne _ "Authorization") by canon_ne;
      by rewrite Hempty, Get_empty.
Qed.

Lemma tokenBlind_do {T} `{Target T} method path body headers csrf (out : option T) :
  headers = [] ∨ headers = [("Content-Type", "application/x-www-form-urlencoded")] →
  tokenBlind (do method path body headers csrf out).
Proof.
  intros Hh w k Htok. rewrite !do_eq. simpl.
  rewrite buildRequest_token by done.
  destruct (buildRequest _ _ _ _ _ _) as [req|] eqn:Hb.
  - split_and!; [done..|]. exists [req]. split; [done|].
    constructor; [|done]. by eapply buildRequest_tokenAuthOnly.
  - split_and!; [done..|]. exists []. by rewrite app_nil_r.
Qed.

Lemma tokenBlind_ListVMs node full : tokenBlind (ListVMs node full).
Proof.
  intros w k Htok.
  assert (listVMsURL (withCredentials (cli w) k) node full = listVMsURL (cli w) node full)
    as HU by done.
  assert (∀ req, listVMsAuth (withCredentials (cli w) k) req = listVMsAuth (cli w) req) as HA.
  { intros req. unfold listVMsAuth. simpl. by rewrite Htok. }
  pose proof (ListVMs_world node full w) as Hw.
  unfold ListVMs, bind, getClient in *. simpl in *. rewrite HU.
  destruct (NewRequestWithContext _ _ _) as [req|] eqn:Hreq.
  - rewrite HA. unfold httpDo in *. simpl in *. rewrite Hw.
    split_and!.
    + destruct (server w (wire w) _) as [resp|]; [|done].
      destruct (negb _); [done|]. destruct (json_first _ _); [|done].
      by destruct (store_struct _ _ _) as [? []].
    + done.
    + eexists; split; [done|]. constructor; [|done].
      apply NewRequest_Some in Hreq as (_ & Hempty & _).
      unfold tokenAuthOnly, listVMsAuth. rewrite Htok.
      split_and!.
      * apply Get_setHeader_eq.
      * rewrite Get_setHeader_ne by canon_ne. by rewrite Hempty, Get_empty.
      * rewrite Get_setHeader_ne by canon_ne. by rewrite Hempty, Get_empty.
  - split_and!; [done..|]. exists []. by rewrite app_nil_r.
Qed.

Create HintDb blind discriminated.
#[local] Hint Resolve tokenBlind_ret tokenBlind_bind tokenBlind_setClock tokenBlind_Login
  tokenBlind_ListVMs : blind.
#[local] Hint Extern 1 (tokenBlind (do _ _ _ _ _ _)) =>
  apply tokenBlind_do; first [by left | by right] : blind.

Lemma tokenBlind_call op : tokenBlind (call op).
Proof.
  destruct op; cbn [call];
    unfold CreateVM, GetVMConfig, StartVM, StopVM, SetMemory, SetCores, UpdateVMConfig;
    repeat first
      [ progress auto with blind
      | apply tokenBlind_bind; [|intros ?]
      | match goal with
        | |- tokenBlind (match ?x with _ => _ end) => destruct x
        | |- tokenBlind (if ?x then _ else _) => destruct x
        end ].
Qed.

Lemma tokenBlind_run calls : tokenBlind (run calls).
Proof.
  induction calls as [|[t op] calls IH]; cbn [run]; [auto with blind|].
  repeat (apply tokenBlind_bind; [|intros ?]);
    auto using tokenBlind_call with blind.
Qed.

(** C5. In token mode the credential state is neither written nor read, by
    [Login] or by any run of calls: [Login] returns nil and changes
    nothing; a run leaves the client as it was, so credentials that start
    at their zero value stay there; with any other credential state in the
    client the run returns the same replies and sends the same requests;
    and every request it sends carries the static token in its
    Authorization header, and neither cookie nor CSRF token. *)
Theorem token_mode_leaves_credentials_alone w calls :
  authMethod (cli w) = AuthToken →
  Login w = (None, w)
  ∧ cli (run calls w).2 = cli w
  ∧ (credentials (cli w) = zeroCredentials →
     credentials (cli (run calls w).2) = zeroCredentials)
  ∧ (∀ k, (run calls (reCred w k)).1 = (run calls w).1
          ∧ wire (run calls (reCred w k)).2 = wire (run calls w).2)
  ∧ Forall (tokenAuthOnly (cli w)) (sent (run calls) w).
Proof.
  intros Htok.
  destruct (tokenBlind_run calls w zeroCredentials Htok) as (_ & Hc & l & Hw & Hl).
  split_and!.
  - unfold Login, bind, getClient. simpl. by rewrite Htok.
  - done.
  - by rewrite Hc.
  - intros k. destruct (tokenBlind_run calls w k Htok) as (E & _). by rewrite E.
  - unfold sent. by rewrite Hw, drop_app_length.
Qed.

(** ** Login *)

(** The world after a login that succeeded with [ticket] and [csrf]. *)
Lemma Login_eq w :
  authMethod (cli w) = AuthPassword →
  Login w =
  if stillValid (cli w) (time.Sub (clock w) (lastLogin (cli w))) then (None, w)
  else match loginRequest (cli w) with
  | None => (Some ErrNewRequest, w)
  | Some req =>
      match server w (wire w) req with
      | NetError msg => (Some (ErrLoginRequest msg), pushWire w req)
      | Answer resp =>
          if negb (StatusCode resp =? 200) then
            (Some (ErrLoginStatus (StatusCode resp) (Bytes.take 512 (RespBody resp))),
             pushWire w req)
          else match decodeLogin resp with
          | None => (Some ErrLoginDecode, pushWire w req)
          | Some (ticket, csrf) =>
              (None,
               {| cli := withCredentials (cli w)
                           {| credTicket := ticket; credCSRF := csrf;
                              credCookie := findAuthCookie (Cookies resp);
                              credLastLogin := clock w |};
                  wire := wire w ++ [req]; clock := clock w; server := server w |})
          end
      end
  end.
Proof.
  intros Hpw. unfold Login, bind, getClient, time_Since, time_Now, ret, bind. simpl.
  rewrite Hpw. destruct (stillValid _ _); [done|].
  destruct (loginRequest _) as [req|]; [|done].
  unfold httpDo. destruct (server w (wire w) req) as [resp|]; [|done]. simpl.
  destruct (negb _); [done|]. by destruct (decodeLogin resp) as [[ticket csrf]|].
Qed.

(** X27. Whatever the error, a [Login] that returns one has not written
    the client. *)
Lemma Login_error_keeps_client w e : (Login w).1 = Some e → cli (Login w).2 = cli w.
Proof.
  destruct (authMethod (cli w)) eqn:Hm.
  - rewrite Login_eq by done.
    destruct (stillValid _ _); [done|].
    destruct (loginRequest _) as [req|]; [|done].
    destruct (server w (wire w) req) as [resp|]; [|done].
    destruct (negb _); [done|]. by destruct (decodeLogin resp) as [[ticket csrf]|].
  - unfold Login, bind, getClient. simpl. by rewrite Hm.
Qed.

(** C6. When the login call is answered with a status other than 200, or
    with a body that does not decode, [Login] returns an error and the
    credential state is what it was before. *)
Theorem Login_failure_keeps_credentials w req resp :
  authMethod (cli w) = AuthPassword →
  stillValid (cli w) (time.Sub (clock w) (lastLogin (cli w))) = false →
  loginRequest (cli w) = Some req →
  server w (wire w) req = Answer resp →
  StatusCode resp ≠ 200 ∨ decodeLogin resp = None →
  (∃ e, (Login w).1 = Some e)
  ∧ credentials (cli (Login w).2) = credentials (cli w)
  ∧ sent Login w = [req].
Proof.
  intros Hpw Hinvalid Hreq Hresp Hfail.
  assert (∃ e, Login w = (Some e, pushWire w req)) as [e E].
  { rewrite Login_eq, Hinvalid, Hreq, Hresp by done.
    destruct (Z.eqb_spec (StatusCode resp) 200) as [E200|N200]; simpl.
    - destruct Hfail as [?| ->]; [done|]. by eexists.
    - by eexists. }
  split_and!.
  - exists e. by rewrite E.
  - by rewrite E.
  - apply sent_pushWire. by rewrite E.
Qed.

(** The test of [Login] is the validity of the credential state. *)
Lemma stillValid_false c now :
  time.minDuration < loginExpiry c <= time.maxDuration →
  stillValid c (time.Sub now (lastLogin c)) = false ↔ credInvalid c now.
Proof.
  unfold stillValid, credInvalid, time.Sub.
  generalize time.maxDuration time.minDuration. intros hi lo Hrange.
  rewrite andb_false_iff, negb_false_iff, String.eqb_eq, Z.ltb_ge.
  split.
  - intros [Hold|Hnone]; [right|by left]. revert Hold.
    destruct (Z.ltb_spec hi (now - lastLogin c)); [lia|].
    destruct (Z.ltb_spec (now - lastLogin c) lo); lia.
  - intros [Hnone|Hold]; [by right|left].
    destruct (Z.ltb_spec hi (now - lastLogin c)); [lia|].
    destruct (Z.ltb_spec (now - lastLogin c) lo); lia.
Qed.

(** A call of [Login] on a password-mode client with invalid credentials
    sends the login request, and nothing else. *)
Lemma Login_sends_login w req :
  authMethod (cli w) = AuthPassword →
  stillValid (cli w) (time.Sub (clock w) (lastLogin (cli w))) = false →
  loginRequest (cli w) = Some req →
  sent Login w = [req].
Proof.
  intros Hpw Hinvalid Hreq.
  assert (wire (Login w).2 = wire w ++ [req]) as Hw.
  { rewrite Login_eq, Hinvalid, Hreq by done.
    destruct (server w (wire w) req) as [resp|]; [|done].
    destruct (negb _); [done|]. by destruct (decodeLogin resp) as [[ticket csrf]|]. }
  unfold sent. by rewrite Hw, drop_app_length.
Qed.

(** The login request asks for no JSON; every request of [do] does. *)
Lemma loginRequest_Accept c req :
  loginRequest c = Some req → Header.Get (Headers req) "Accept" = "".
Proof.
  unfold loginRequest. destruct (NewRequestWithContext _ _ _) as [req0|] eqn:Hreq0; [|done].
  intros [= <-]. apply NewRequest_Some in Hreq0 as (_ & Hempty & _).
  rewrite Get_setHeader_ne by canon_ne. by rewrite Hempty, Get_empty.
Qed.

Lemma loginRequest_Method c req : loginRequest c = Some req → Method req = "POST".
Proof.
  unfold loginRequest, NewRequestWithContext. simpl.
  destruct (url_Parse _); [|done]. by intros [= <-].
Qed.

Lemma buildRequest_Accept c method path body headers csrf req :
  headers = [] ∨ headers = [("Content-Type", "application/x-www-form-urlencoded")] →
  buildRequest c method path body headers csrf = Some req →
  Header.Get (Headers req) "Accept" = "application/json".
Proof.
  intros Hh (req0 & _ & ->)%buildRequest_Some.
  destruct Hh as [-> | ->]; cbn [foldl];
    rewrite ?(Get_setHeader_ne _ "Content-Type") by canon_ne;
    apply Get_setHeader_eq.
Qed.

(** ** No operation logs in *)

Lemma do_world {T} `{Target T} method path body headers csrf (out : option T) w :
  headers = [] ∨ headers = [("Content-Type", "application/x-www-form-urlencoded")] →
  (do method path body headers csrf out w).2 = w
  ∨ ∃ req, (do method path body headers csrf out w).2 = pushWire w req ∧ resourceRequest req.
Proof.
  intros Hh. rewrite do_eq.
  destruct (buildRequest _ _ _ _ _ _) as [req|] eqn:Hb; [right|by left].
  exists req. split; [done|]. left. by eapply buildRequest_Accept.
Qed.

Lemma call_world op w :
  isResourceOp op = true →
  (call op w).2 = w ∨ ∃ req, (call op w).2 = pushWire w req ∧ resourceRequest req.
Proof.
  intros Hop. destruct op as [|n v cfg|n v|n v|n v|n v cfg|n v m|n v m|n full]; [done|..].
  - replace (call (OpCreateVM n v cfg) w).2 with (CreateVM n v cfg w).2
      by (unfold call, bind; by destruct (CreateVM n v cfg w)).
    destruct cfg as [cfg|]; [|by left].
    destruct (Z.leb_spec v 0) as [Hle|Hpos].
    + left. unfold CreateVM. apply Z.leb_le in Hle. by rewrite Hle.
    + rewrite CreateVM_world by done. apply do_world. by right.
  - replace (call (OpGetVMConfig n v) w).2 with (GetVMConfig n v w).2
      by (unfold call, bind; by destruct (GetVMConfig n v w)).
    rewrite GetVMConfig_world. apply do_world. by left.
  - replace (call (OpStartVM n v) w).2 with (StartVM n v w).2
      by (unfold call, bind; by destruct (StartVM n v w)).
    rewrite StartVM_world. apply do_world. by left.
  - replace (call (OpStopVM n v) w).2 with (StopVM n v w).2
      by (unfold call, bind; by destruct (StopVM n v w)).
    rewrite StopVM_world. apply do_world. by left.
  - replace (call (OpUpdateVMConfig n v cfg) w).2 with (UpdateVMConfig n v cfg w).2
      by (unfold call, bind; by destruct (UpdateVMConfig n v cfg w)).
    destruct cfg as [cfg|]; [|by left].
    rewrite UpdateVMConfig_world. apply do_world. by right.
  - replace (call (OpSetMemory n v m) w).2 with (SetMemory n v m w).2
      by (unfold call, bind; by destruct (SetMemory n v m w)).
    unfold SetMemory. rewrite UpdateVMConfig_world. apply do_world. by right.
  - replace (call (OpSetCores n v m) w).2 with (SetCores n v m w).2
      by (unfold call, bind; by destruct (SetCores n v m w)).
    unfold SetCores. rewrite UpdateVMConfig_world. apply do_world. by right.
  - replace (call (OpListVMs n full) w).2 with (ListVMs n full w).2
      by (unfold call, bind; by destruct (ListVMs n full w)).
    rewrite ListVMs_world.
    destruct (NewRequestWithContext _ _ _) as [req|] eqn:Hreq; [right|by left].
    eexists. split; [done|]. right.
    assert (Method req = "GET") as HM.
    { revert Hreq. unfold NewRequestWithContext. simpl.
      destruct (url_Parse _); [|done]. by intros [= <-]. }
    unfold listVMsAuth. by destruct (authMethod _).
Qed.

(** C1 (as the code has it). No resource operation logs in. Called on a
    password-mode client whose credential state is invalid, it leaves the
    client as it was and sends at most one request, which is not the login
    request; the login request goes out when [Login] itself is called. *)
Theorem login_is_left_to_Login w op req :
  isResourceOp op = true →
  authMethod (cli w) = AuthPassword →
  credInvalid (cli w) (clock w) →
  time.minDuration < loginExpiry (cli w) <= time.maxDuration →
  loginRequest (cli w) = Some req →
  (cli (call op w).2 = cli w
   ∧ (length (sent (call op) w) ≤ 1)%nat
   ∧ req ∉ sent (call op) w)
  ∧ sent Login w = [req].
Proof.
  intros Hop Hpw Hinvalid Hrange Hreq. split.
  - destruct (call_world op w Hop) as [E | (req' & E & Hres)].
    + rewrite (sent_same _ _ E), E. split_and!; [done|simpl; lia|]. by intros ?%elem_of_nil.
    + rewrite (sent_pushWire _ _ _ E), E. split_and!; [done|simpl; lia|].
      intros ->%list_elem_of_singleton.
      destruct Hres as [HA | HM].
      * by rewrite (loginRequest_Accept _ _ Hreq) in HA.
      * by rewrite (loginRequest_Method _ _ Hreq) in HM.
  - apply Login_sends_login; [done| |done]. by apply stillValid_false.
Qed.

(** ** The response unwrapper *)

Lemma member_snoc name ms k x :
  member name (ms ++ [(k, x)]) = if equalFold k name then Some x else member name ms.
Proof.
  unfold member. rewrite filter_app, filter_cons, filter_nil. simpl.
  destruct (equalFold k name) eqn:E.
  - rewrite decide_True by done. by rewrite last_snoc.
  - rewrite decide_False by congruence. by rewrite app_nil_r.
Qed.

(** The RawMessage of the data wrapper is the last member named data. *)
Lemma store_data_member ms :
  store_struct data_field (JSON.Object ms) None = (member "data" ms, true).
Proof.
  unfold store_struct. induction ms as [|[k x] ms IH] using rev_ind; [done|].
  rewrite foldl_app, IH, member_snoc. cbn [foldl]. unfold data_field.
  by destruct (equalFold k "data").
Qed.

Lemma store_errors_absent ms w ok :
  member "errors" ms = None →
  foldl (fun '(s, ok) '(k, x) => let '(s', ok') := errors_field k x s in (s', ok && ok'))
        (w, ok) ms = (w, ok).
Proof.
  induction ms as [|[k x] ms IH] using rev_ind; [done|].
  rewrite member_snoc, foldl_app. cbn [foldl].
  destruct (equalFold k "errors") eqn:Ek; [done|]. intros Hm. rewrite IH by done.
  unfold errors_field. by rewrite Ek, andb_true_r.
Qed.

Lemma store_errors_last ms x w ok :
  member "errors" ms = Some x →
  ∃ w0,
    (foldl (fun '(s, ok) '(k, x) => let '(s', ok') := errors_field k x s in (s', ok && ok'))
           (w, ok) ms).1 = (store_map x w0).1.
Proof.
  induction ms as [|[k y] ms IH] using rev_ind; [done|].
  rewrite member_snoc, foldl_app. cbn [foldl].
  destruct (foldl _ (w, ok) ms) as [w1 ok1] eqn:E.
  unfold errors_field. destruct (equalFold k "errors").
  - intros [= ->]. exists w1. by destruct (store_map x w1).
  - intros Hm. destruct (IH Hm) as [w0 Hw0]. exists w0. by rewrite <- Hw0.
Qed.

Lemma unwrap_error {T} `{Target T} resp (out : option T) :
  BodyFault resp = false → 400 <= StatusCode resp →
  unwrap resp out =
  (out, Some (APIError (StatusCode resp) (unmarshal_struct errors_field (RespBody resp) None).1)).
Proof.
  intros Hf Hs. unfold unwrap. rewrite Hf.
  by destruct (Z.leb_spec 400 (StatusCode resp)); [|lia].
Qed.

(** C4 (as the code has it). A response with status 400 or more whose
    body was read gives an APIError with exactly that status, whether or
    not the body is JSON, and no decode error takes its place. The errors
    map is nil when the body is not JSON or has no errors member, and a
    map when the errors member is an object. *)
Theorem api_error_keeps_status {T} `{Target T} method path body headers csrf
    (out : option T) w req resp :
  buildRequest (cli w) method path body headers csrf = Some req →
  server w (wire w) req = Answer resp →
  BodyFault resp = false →
  400 <= StatusCode resp →
  ∃ errs,
    (do method path body headers csrf out w).1 = (out, Some (APIError (StatusCode resp) errs))
    ∧ (json_whole (RespBody resp) = None → errs = None)
    ∧ (∀ ms, json_whole (RespBody resp) = Some (JSON.Object ms) →
             member "errors" ms = None → errs = None)
    ∧ (∀ ms fields, json_whole (RespBody resp) = Some (JSON.Object ms) →
             member "errors" ms = Some (JSON.Object fields) → is_Some errs).
Proof.
  intros Hb Hresp Hf Hs. eexists. rewrite do_eq, Hb, Hresp. simpl.
  rewrite unwrap_error by done. split_and!; [done|..]; unfold unmarshal_struct.
  - by intros ->.
  - intros ms -> Hm. unfold store_struct. by rewrite store_errors_absent.
  - intros ms fields -> Hm. unfold store_struct.
    destruct (store_errors_last ms _ None true Hm) as [w0 ->]. done.
Qed.

Lemma unwrap_below_400 {T} `{Target T} resp (t : T) :
  BodyFault resp = false → StatusCode resp < 400 → RespBody resp ≠ "" →
  unwrap resp (Some t) =
  match unmarshal_struct data_field (RespBody resp) None with
  | (_, false) => (Some t, Some ErrInvalidJSON)
  | (None, true) => (Some t, None)
  | (Some data, true) => (Some (json_store data t).1,
                          if (json_store data t).2 then None else Some ErrDecodingData)
  end.
Proof.
  intros Hf Hs Hne. unfold unwrap. rewrite Hf.
  destruct (Z.leb_spec 400 (StatusCode resp)); [lia|].
  destruct (RespBody resp) as [|c r] eqn:Hbody; [done|]. cbn [String.length Nat.ltb Nat.leb].
  destruct (unmarshal_struct _ _ _) as [[data|] []]; try done.
  by destruct (json_store data t).
Qed.

Lemma unwrap_success {T} `{Target T} resp ms (t : T) :
  BodyFault resp = false → StatusCode resp < 400 → RespBody resp ≠ "" →
  json_whole (RespBody resp) = Some (JSON.Object ms) →
  unwrap resp (Some t) =
  match member "data" ms with
  | None => (Some t, None)
  | Some data => (Some (json_store data t).1,
                  if (json_store data t).2 then None else Some ErrDecodingData)
  end.
Proof.
  intros Hf Hs Hne Hjson. rewrite unwrap_below_400 by done.
  unfold unmarshal_struct. rewrite Hjson, store_data_member.
  by destruct (member "data" ms).
Qed.

Lemma store_map_fields fields (m0 : gmap string any) k :
  (foldl (fun acc '(k, x) => <[k := to_any x]> acc) m0 fields) !! k =
  match member_exact k fields with
  | Some x => Some (to_any x)
  | None => m0 !! k
  end.
Proof.
  unfold member_exact. revert m0.
  induction fields as [|[k' x] fields IH] using rev_ind; intros m0; [done|].
  rewrite foldl_app, filter_app, filter_cons, filter_nil. cbn [foldl]. simpl.
  destruct (decide (k' = k)) as [->|Hne].
  - by rewrite last_snoc, lookup_insert_eq.
  - rewrite app_nil_r, lookup_insert_ne by done. apply IH.
Qed.

(** C7 (as the code has it). For a response with status below 400, a map
    as decode target and a body that is not empty, the pipeline parses the
    envelope: a body that is no JSON, or a JSON value other than an object
    or null, is an invalid-JSON error. For a body that is an object:
    without a data member the target is left untouched and no error is
    returned; a data member that is null sets the target to nil, so a
    target that was nil stays as it was, and no error is returned; a data
    member that is an object is stored into the target key by key, over
    what the target held; any other data member is a decode error that
    leaves the target untouched. Without a decode target nothing is decoded
    and nil is returned. *)
Theorem envelope_unwrapping resp (t : gomap) :
  BodyFault resp = false → StatusCode resp < 400 → RespBody resp ≠ "" →
  (json_whole (RespBody resp) = None → unwrap resp (Some t) = (Some t, Some ErrInvalidJSON))
  ∧ (∀ v, json_whole (RespBody resp) = Some v → mismatch v = true →
          unwrap resp (Some t) = (Some t, Some ErrInvalidJSON))
  ∧ (json_whole (RespBody resp) = Some JSON.Null → unwrap resp (Some t) = (Some t, None))
  ∧ (∀ ms, json_whole (RespBody resp) = Some (JSON.Object ms) →
       (member "data" ms = None → unwrap resp (Some t) = (Some t, None))
       ∧ (member "data" ms = Some JSON.Null → unwrap resp (Some t) = (Some None, None))
       ∧ (∀ fields, member "data" ms = Some (JSON.Object fields) →
            ∃ m, (unwrap resp (Some t)).1 = Some (Some m)
                 ∧ (∀ k, m !! k = match member_exact k fields with
                                  | Some x => Some (to_any x)
                                  | None => default ∅ t !! k
                                  end)
                 ∧ ((unwrap resp (Some t)).2 = None
                    ∨ (unwrap resp (Some t)).2 = Some ErrDecodingData))
       ∧ (∀ v, member "data" ms = Some v → mismatch v = true →
            unwrap resp (Some t) = (Some t, Some ErrDecodingData)))
  ∧ unwrap resp (@None gomap) = (None, None).
Proof.
  intros Hf Hs Hne.
  pose proof (unwrap_below_400 resp t Hf Hs Hne) as Hraw.
  split_and!.
  - intros Hjson. rewrite Hraw. unfold unmarshal_struct. by rewrite Hjson.
  - intros v Hjson Hv. rewrite Hraw. unfold unmarshal_struct. rewrite Hjson. by destruct v.
  - intros Hjson. rewrite Hraw. unfold unmarshal_struct. by rewrite Hjson.
  - intros ms Hjson.
    pose proof (unwrap_success resp ms t Hf Hs Hne Hjson) as Hu.
    split_and!.
    + intros Hm. by rewrite Hu, Hm.
    + intros Hm. by rewrite Hu, Hm.
    + intros fields Hm. rewrite Hu, Hm. cbn [json_store gomap_target store_map fst snd].
      eexists. split_and!; [done| |].
      * intros k. apply store_map_fields.
      * destruct (forallb _ fields); [by left|by right].
    + intros v Hm Hv. rewrite Hu, Hm. by destruct v.
  - unfold unwrap. rewrite Hf. by destruct (Z.leb_spec 400 (StatusCode resp)); [lia|].
Qed.

(** ** The two field-mapping loops *)

(** A left fold whose steps commute on entries with different keys gives
    the same result on every arrangement of a list without repeated
    keys. *)
Lemma foldl_rearrange {A B K} (f : A → B → A) (key : B → K) (l1 l2 : list B) :
  (∀ a x y, key x ≠ key y → f (f a x) y = f (f a y) x) →
  NoDup (key <$> l1) → l1 ≡ₚ l2 → ∀ a, foldl f a l1 = foldl f a l2.
Proof.
  intros Hcomm Hnd Hperm. induction Hperm as [|x l l' Hp IH|x y l|l l' l'' Hp1 IH1 Hp2 IH2];
    intros a.
  - done.
  - cbn [foldl]. apply IH. by apply NoDup_cons in Hnd as [_ ?].
  - cbn [foldl]. f_equal. apply Hcomm.
    rewrite !fmap_cons in Hnd. apply NoDup_cons in Hnd as [Hin _].
    intros E. apply Hin. rewrite E. by left.
  - rewrite IH1 by done. apply IH2. by rewrite <- Hp1.
Qed.

Lemma loops_same_text entries : GetVMConfig_loop entries = ParseQemuVmConfig_loop entries.
Proof. reflexivity. Qed.

Lemma ParseQemuVmConfig_loop_rearrange l1 l2 :
  NoDup (fst <$> l1) → l1 ≡ₚ l2 → ParseQemuVmConfig_loop l1 = ParseQemuVmConfig_loop l2.
Proof.
  intros Hnd Hperm. unfold ParseQemuVmConfig_loop.
  eapply (foldl_rearrange _ fst); [|done..].
  intros cfg [k1 v1] [k2 v2] Hne. simpl in Hne.
  destruct (String.eqb_spec k1 "name"); destruct (String.eqb_spec k1 "memory");
  destruct (String.eqb_spec k1 "sockets"); destruct (String.eqb_spec k1 "cores");
  destruct (String.eqb_spec k1 "description"); try congruence;
  destruct (String.eqb_spec k2 "name"); destruct (String.eqb_spec k2 "memory");
  destruct (String.eqb_spec k2 "sockets"); destruct (String.eqb_spec k2 "cores");
  destruct (String.eqb_spec k2 "description"); try congruence; try reflexivity.
  cbn. f_equal. destruct (cfgRaw cfg) as [m|]; [|done]. cbn.
  f_equal. by apply insert_insert_ne.
Qed.

(** The order of a [range] loop does not matter to the loops. *)
Lemma range_order_irrelevant (raw : gomap) entries :
  entries ≡ₚ range raw → GetVMConfig_loop entries = GetVMConfig_loop (range raw).
Proof.
  intros Hperm. rewrite !loops_same_text. symmetry.
  apply ParseQemuVmConfig_loop_rearrange; [|done].
  unfold range. apply NoDup_fst_map_to_list.
Qed.

Lemma range_Some (m : gmap string any) : range (Some m) = map_to_list m.
Proof. done. Qed.

(** X26. What the loop computes: the five typed fields from the entries
    of their names, [Vmid] never, and every other entry printed into Raw. *)
Lemma ParseQemuVmConfig_fields (m : gmap string any) :
  ParseQemuVmConfig (Some m) =
  {| cfgName := default "" (fmt_v <$> m !! "name");
     cfgVmid := "";
     cfgMemoryMB := default "" (toJSONNumber <$> m !! "memory");
     cfgSockets := default "" (toJSONNumber <$> m !! "sockets");
     cfgCores := default "" (toJSONNumber <$> m !! "cores");
     cfgDescription := default "" (fmt_v <$> m !! "description");
     cfgRaw := Some (fmt_v <$> filter (fun kv => kv.1 ∉ typedKeys) m) |}.
Proof.
  unfold ParseQemuVmConfig. induction m as [|i x m Hi IH] using map_ind.
  - rewrite range_Some, map_to_list_empty. cbn.
    by rewrite !lookup_empty, map_filter_empty, fmap_empty.
  - rewrite (ParseQemuVmConfig_loop_rearrange _ (range (Some m) ++ [(i, x)])); cycle 1.
    { rewrite range_Some. apply NoDup_fst_map_to_list. }
    { rewrite !range_Some, map_to_list_insert by done. apply Permutation_cons_append. }
    unfold ParseQemuVmConfig_loop in *. rewrite foldl_app, IH. cbn [foldl]. clear IH.
    destruct (String.eqb_spec i "name") as [->|?];
      [|destruct (String.eqb_spec i "memory") as [->|?];
        [|destruct (String.eqb_spec i "sockets") as [->|?];
          [|destruct (String.eqb_spec i "cores") as [->|?];
            [|destruct (String.eqb_spec i "description") as [->|?]]]]];
      cbn [cfgName cfgVmid cfgMemoryMB cfgSockets cfgCores cfgDescription cfgRaw];
      rewrite ?lookup_insert_eq, ?lookup_insert_ne by done; cbn [fmap option_fmap option_map default].
    1-5: rewrite map_filter_insert_False, delete_id by
           (first [done | cbn; intros Hn; apply Hn, list_elem_of_In; cbn; tauto]); done.
    rewrite map_filter_insert_True
      by (cbn; intros Hin%list_elem_of_In; cbn in Hin; intuition congruence).
    by rewrite fmap_insert.
Qed.

(** C10. On every raw map, and in whatever order each of the two loops
    meets its entries, the loop inlined in [GetVMConfig] and
    [ParseQemuVmConfig] build the same config. *)
Theorem GetVMConfig_loop_is_ParseQemuVmConfig (raw : gomap) l1 l2 :
  l1 ≡ₚ range raw → l2 ≡ₚ range raw →
  GetVMConfig_loop l1 = ParseQemuVmConfig_loop l2
  ∧ GetVMConfig_loop (range raw) = ParseQemuVmConfig raw.
Proof.
  intros Hl1 Hl2. split; [|reflexivity].
  rewrite loops_same_text. apply ParseQemuVmConfig_loop_rearrange.
  - rewrite Hl1. unfold range. apply NoDup_fst_map_to_list.
  - by rewrite Hl1, Hl2.
Qed.

(** ** Construction *)

Lemma newClient_Ok base u p method skip c :
  newClient base u p method skip = Ok c →
  authMethod c = method ∧ username c = u ∧ password c = p ∧ skipsVerify c = skip
  ∧ credentials c = zeroCredentials ∧ loginExpiry c = time.Hour.
Proof.
  unfold newClient. destruct (base =? "")%string; [done|].
  destruct (url_Parse _); [|done]. intros [= <-].
  split_and!; [reflexivity..|]. cbn [loginExpiry]. lia.
Qed.

(** X28. [NewClientPassword] and [NewClientToken] do not read their
    [tlsCfg] either: the client they return skips the verification of
    certificates. *)
Lemma NewClientPassword_NewClientToken_skip base u p (tlsCfg : bool) c :
  NewClientPassword base u p tlsCfg = Ok c ∨ NewClientToken base u p tlsCfg = Ok c →
  skipsVerify c = true.
Proof.
  unfold NewClientPassword, NewClientToken.
  intros [Hc|Hc]; by apply newClient_Ok in Hc as (_ & _ & _ & ? & _).
Qed.

(** C2 (the code departs from the claim). [NewClient] does not hand its
    [tlsCfg] argument on: whatever the caller asks for, the transport of
    the client it returns skips certificate verification. *)
Theorem NewClient_always_skips_verification base u p (tlsCfg useToken : bool) c :
  NewClient base u p tlsCfg useToken = Ok c → skipsVerify c = true.
Proof. unfold NewClient. intros Hc. by apply newClient_Ok in Hc as (_ & _ & _ & ? & _). Qed.

(** ** Guards of CreateVM and UpdateVMConfig *)

(** C9. [CreateVM] with a nil config or a vmid that is not positive, and
    [UpdateVMConfig] with a nil config, return an error and leave the world
    as it was: nothing is sent. *)
Theorem CreateVM_UpdateVMConfig_guards w node vmid cfg :
  cfg = None ∨ vmid <= 0 →
  (∃ e, CreateVM node vmid cfg w = (Some e, w)) ∧
  (∃ e, UpdateVMConfig node vmid None w = (Some e, w)).
Proof.
  intros Hbad. split; [|by eexists].
  unfold CreateVM. destruct cfg as [cfg|]; [|by eexists].
  destruct Hbad as [|Hle]; [done|].
  apply Z.leb_le in Hle. rewrite Hle. by eexists.
Qed.

End Facts.

(** * More of the package

    Properties of the code that the claims leave aside. *)

Section MoreFacts.
Context `{GoLib} `{VmSchema}.

Lemma sent_bind_app {A B} (m : M A) (f : A → M B) w l1 l2 :
  wire (m w).2 = wire w ++ l1 →
  wire (f (m w).1 (m w).2).2 = wire (m w).2 ++ l2 →
  sent (bind m f) w = l1 ++ l2.
Proof.
  unfold sent, bind. destruct (m w) as [a w1]. cbn [fst snd]. intros E1 E2.
  rewrite E2, E1, <- app_assoc. by rewrite drop_app_length.
Qed.

(** ** Construction *)

Lemma TrimRight_snoc s c cutset :
  Bytes.mem c cutset = true →
  Bytes.TrimRight (s +:+ String c "") cutset = Bytes.TrimRight s cutset.
Proof.
  intros Hc. induction s as [|a s IH]; simpl.
  - by rewrite Hc.
  - by rewrite IH.
Qed.

(** X1. A slash at the end of the base URL makes no difference to the
    client that [newClient] builds. *)
Theorem newClient_trailing_slash base u p method skip :
  base ≠ "" →
  newClient (base +:+ "/") u p method skip = newClient base u p method skip.
Proof.
  intros Hne. unfold newClient.
  destruct (String.eqb_spec base ""); [done|].
  destruct (String.eqb_spec (base +:+ "/") "") as [E|_].
  { apply (f_equal String.length) in E. rewrite length_app in E. simpl in E. lia. }
  by rewrite TrimRight_snoc.
Qed.

(** ** Login *)

Lemma Login_success w req resp ticket csrf :
  authMethod (cli w) = AuthPassword →
  stillValid (cli w) (time.Sub (clock w) (lastLogin (cli w))) = false →
  loginRequest (cli w) = Some req →
  server w (wire w) req = Answer resp →
  StatusCode resp = 200 →
  decodeLogin resp = Some (ticket, csrf) →
  (Login w).1 = None
  ∧ cli (Login w).2 =
      withCredentials (cli w)
        {| credTicket := ticket; credCSRF := csrf;
           credCookie := findAuthCookie (Cookies resp); credLastLogin := clock w |}
  ∧ sent Login w = [req].
Proof.
  intros Hpw Hinvalid Hreq Hresp Hs Hd.
  assert (sent Login w = [req]) as Hsent by by apply Login_sends_login.
  rewrite Login_eq, Hinvalid, Hreq, Hresp, Hs, Hd in * by done. done.
Qed.

(** X2. A login that the server answers with 200 and a body that decodes
    returns nil, sends the login request alone, and stores the ticket, the
    CSRF token, the first PVEAuthCookie cookie of the response and the
    time; nothing else of the client changes. *)
Theorem Login_success_stores w req resp ticket csrf :
  authMethod (cli w) = AuthPassword →
  stillValid (cli w) (time.Sub (clock w) (lastLogin (cli w))) = false →
  loginRequest (cli w) = Some req →
  server w (wire w) req = Answer resp →
  StatusCode resp = 200 →
  decodeLogin resp = Some (ticket, csrf) →
  (Login w).1 = None
  ∧ cli (Login w).2 =
      withCredentials (cli w)
        {| credTicket := ticket; credCSRF := csrf;
           credCookie := findAuthCookie (Cookies resp); credLastLogin := clock w |}
  ∧ sent Login w = [req].
Proof. apply Login_success. Qed.

Lemma Login_valid w :
  time.minDuration < loginExpiry (cli w) <= time.maxDuration →
  authTicket (cli w) ≠ "" →
  clock w - lastLogin (cli w) < loginExpiry (cli w) →
  Login w = (None, w).
Proof.
  intros Hrange Hticket Hfresh.
  destruct (authMethod (cli w)) eqn:Hm.
  - rewrite Login_eq by done.
    destruct (stillValid _ _) eqn:Hv; [done|].
    apply stillValid_false in Hv as [?|?]; [done|lia|done].
  - unfold Login, bind, getClient. simpl. by rewrite Hm.
Qed.

(** X3. Two calls of [Login] within the expiry window send one request:
    after a login that stored a ticket, a second call before
    [lastLogin + loginExpiry] returns nil, sends nothing and changes
    nothing. *)
Theorem Login_once_per_window w req resp ticket csrf t :
  authMethod (cli w) = AuthPassword →
  stillValid (cli w) (time.Sub (clock w) (lastLogin (cli w))) = false →
  loginRequest (cli w) = Some req →
  server w (wire w) req = Answer resp →
  StatusCode resp = 200 →
  decodeLogin resp = Some (ticket, csrf) →
  ticket ≠ "" →
  time.minDuration < loginExpiry (cli w) <= time.maxDuration →
  t - clock w < loginExpiry (cli w) →
  let again := let* _ := Login in let* _ := setClock t in Login in
  again w = (None, (setClock t (Login w).2).2)
  ∧ sent again w = [req].
Proof.
  intros Hpw Hinvalid Hreq Hresp Hs Hd Hticket Hrange Ht again.
  destruct (Login_success w req resp ticket csrf) as (Hr & Hc & Hsent); [done..|].
  assert (wire (Login w).2 = wire w ++ [req]) as Hw.
  { rewrite Login_eq, Hinvalid, Hreq, Hresp, Hs, Hd by done. done. }
  assert (clock (Login w).2 = clock w) as Hclock.
  { rewrite Login_eq, Hinvalid, Hreq, Hresp, Hs, Hd by done. done. }
  assert (again w = (None, (setClock t (Login w).2).2)) as E.
  { unfold again, bind. destruct (Login w) as [r w1] eqn:E1. simpl in *.
    rewrite Login_valid; [done|..]; simpl; rewrite Hc; simpl; [done|done|lia]. }
  split; [done|]. unfold sent. rewrite E. simpl. by rewrite Hw, drop_app_length.
Qed.

Lemma store_login_absent ms d ok :
  member "data" ms = None →
  foldl (fun '(s, ok) '(k, x) => let '(s', ok') := login_field k x s in (s', ok && ok'))
        (d, ok) ms = (d, ok).
Proof.
  induction ms as [|[k x] ms IH] using rev_ind; [done|].
  rewrite member_snoc, foldl_app. cbn [foldl].
  destruct (equalFold k "data") eqn:Ek; [done|]. intros Hm. rewrite IH by done.
  unfold login_field. by rewrite Ek, andb_true_r.
Qed.

(** X4. A login answered with 200 and a body that holds no ticket (null,
    or an object without data) is taken as a success: [Login] returns nil
    and stores the empty ticket, so the credentials are invalid at every
    later time and the next [Login] goes to the server again. *)
Theorem Login_accepts_missing_ticket w req resp v :
  authMethod (cli w) = AuthPassword →
  stillValid (cli w) (time.Sub (clock w) (lastLogin (cli w))) = false →
  loginRequest (cli w) = Some req →
  server w (wire w) req = Answer resp →
  StatusCode resp = 200 →
  json_first (RespBody resp) (BodyFault resp) = Some v →
  v = JSON.Null ∨ (∃ ms, v = JSON.Object ms ∧ member "data" ms = None) →
  (Login w).1 = None
  ∧ authTicket (cli (Login w).2) = ""
  ∧ ∀ t, credInvalid (cli (Login w).2) t.
Proof.
  intros Hpw Hinvalid Hreq Hresp Hs Hv Hnone.
  assert (decodeLogin resp = Some ("", "")) as Hd.
  { unfold decodeLogin. rewrite Hv. destruct Hnone as [->|(ms & -> & Hm)]; [done|].
    unfold store_struct. by rewrite store_login_absent. }
  destruct (Login_success w req resp "" "") as (Hr & Hc & _); [done..|].
  split_and!; [done|by rewrite Hc|]. intros t. left. by rewrite Hc.
Qed.

(** ** The request of [do] *)

Lemma buildRequest_cookie c method path body headers csrf req :
  authMethod c = AuthPassword →
  headers = [] ∨ headers = [("Content-Type", "application/x-www-form-urlencoded")] →
  buildRequest c method path body headers csrf = Some req →
  Header.Get (Headers req) "Cookie" =
  match authCookie c with
  | Some ck => sanitizeCookieName (Name ck) +:+ "=" +:+ sanitizeCookieValue (Value ck)
  | None => if negb (authTicket c =? "")%string then "PVEAuthCookie=" +:+ authTicket c else ""
  end.
Proof.
  intros Hpw Hh (req0 & Hreq0 & ->)%buildRequest_Some.
  apply NewRequest_Some in Hreq0 as (_ & Hempty & _).
  assert (Header.Get (Headers (foldl (fun req '(k, v) => setHeader req k v)
            (setHeader (attachAuth c csrf req0) "Accept" "application/json") headers)) "Cookie"
          = Header.Get (Headers (attachAuth c csrf req0)) "Cookie") as ->.
  { destruct Hh as [-> | ->]; cbn [foldl];
      rewrite ?(Get_setHeader_ne _ "Content-Type") by canon_ne;
      by rewrite (Get_setHeader_ne _ "Accept") by canon_ne. }
  unfold attachAuth. rewrite Hpw.
  assert (∀ r, Headers r = ∅ ∨ (∃ r0 v, Headers r0 = ∅ ∧ r = setHeader r0 "CSRFPreventionToken" v) →
               Header.Get (Headers r) "Cookie" = "") as Hno.
  { intros r [->|(r0 & v & Hr0 & ->)]; [apply Get_empty|].
    rewrite Get_setHeader_ne by canon_ne. by rewrite Hr0, Get_empty. }
  set (r := if csrf && _ then _ else _).
  assert (Header.Get (Headers r) "Cookie" = "") as Hr.
  { apply Hno. unfold r. destruct (csrf && _); [right; by eexists _, _|by left]. }
  destruct (authCookie c) as [ck|].
  - unfold AddCookie. rewrite Hr. cbn [String.eqb]. apply Get_setHeader_eq.
  - destruct (negb (authTicket c =? "")%string); [apply Get_setHeader_eq|done].
Qed.

Lemma buildRequest_no_Authorization c method path body headers csrf req :
  authMethod c = AuthPassword →
  headers = [] ∨ headers = [("Content-Type", "application/x-www-form-urlencoded")] →
  buildRequest c method path body headers csrf = Some req →
  Header.Get (Headers req) "Authorization" = "".
Proof.
  intros Hpw Hh (req0 & Hreq0 & ->)%buildRequest_Some.
  apply NewRequest_Some in Hreq0 as (_ & Hempty & _).
  assert (Header.Get (Headers (attachAuth c csrf req0)) "Authorization" = "") as Ha.
  { unfold attachAuth, AddCookie. rewrite Hpw.
    destruct (csrf && _); destruct (authCookie c);
      repeat match goal with |- context [if ?b then _ else _] => destruct b end;
      rewrite ?(Get_setHeader_ne _ "Cookie") by canon_ne;
      rewrite ?(Get_setHeader_ne _ "CSRFPreventionToken") by canon_ne;
      by rewrite Hempty, Get_empty. }
  destruct Hh as [-> | ->]; cbn [foldl];
    rewrite ?(Get_setHeader_ne _ "Content-Type") by canon_ne;
    by rewrite (Get_setHeader_ne _ "Accept") by canon_ne.
Qed.

(** X5. In password mode a request of [do] takes its cookie from the
    session cookie when the login captured one, from the ticket (as
    PVEAuthCookie) when it did not, and has no Cookie header when there is
    neither; it never carries an Authorization header. *)
Theorem do_password_cookie {T} `{Target T} method path body csrf (out : option T) w :
  authMethod (cli w) = AuthPassword →
  Forall (fun req =>
            Header.Get (Headers req) "Cookie" =
            match authCookie (cli w) with
            | Some ck => sanitizeCookieName (Name ck) +:+ "=" +:+ sanitizeCookieValue (Value ck)
            | None =>
                if negb (authTicket (cli w) =? "")%string
                then "PVEAuthCookie=" +:+ authTicket (cli w) else ""
            end
            ∧ Header.Get (Headers req) "Authorization" = "")
         (sent (do method path body [] csrf out) w).
Proof.
  intros Hpw. rewrite do_sent.
  destruct (buildRequest _ _ _ _ _ _) as [req|] eqn:Hb; [|done].
  constructor; [|done]. split.
  - eapply buildRequest_cookie; [done|by left|done].
  - eapply buildRequest_no_Authorization; [done|by left|done].
Qed.

(** X6. Login, then a state-changing call: the call's request comes second
    on the wire and carries the CSRF token and the ticket that the login
    response gave. *)
Theorem Login_then_CreateVM w req resp ticket csrf node vmid cfg r :
  authMethod (cli w) = AuthPassword →
  stillValid (cli w) (time.Sub (clock w) (lastLogin (cli w))) = false →
  loginRequest (cli w) = Some req →
  server w (wire w) req = Answer resp →
  StatusCode resp = 200 →
  decodeLogin resp = Some (ticket, csrf) →
  ticket ≠ "" → csrf ≠ "" → findAuthCookie (Cookies resp) = None →
  0 < vmid →
  sent (CreateVM node vmid (Some cfg)) (Login w).2 = [r] →
  (sent (let* _ := Login in CreateVM node vmid (Some cfg)) w = [req; r])
  ∧ Header.Get (Headers r) "CSRFPreventionToken" = csrf
  ∧ Header.Get (Headers r) "Cookie" = "PVEAuthCookie=" +:+ ticket.
Proof.
  intros Hpw Hinvalid Hreq Hresp Hs Hd Hticket Hcsrf Hck Hpos Hr.
  destruct (Login_success w req resp ticket csrf) as (_ & Hc & Hsent); [done..|].
  assert (wire (Login w).2 = wire w ++ [req]) as Hw.
  { rewrite Login_eq, Hinvalid, Hreq, Hresp, Hs, Hd by done. done. }
  rewrite (sent_ext _ _ _ (CreateVM_world node vmid cfg _ Hpos)), do_sent in Hr.
  destruct (buildRequest _ _ _ _ _ _) as [r'|] eqn:Hb; [|done].
  injection Hr as ->.
  split_and!.
  - apply (sent_bind_app _ _ _ [req] [r]); [exact Hw|]. cbv beta.
    rewrite (CreateVM_world node vmid cfg _ Hpos), do_eq, Hb. reflexivity.
  - rewrite (buildRequest_csrf _ _ _ _ _ _ _ (or_intror eq_refl) Hb), Hc. simpl.
    rewrite Hpw. destruct (String.eqb_spec csrf ""); [congruence|done].
  - assert (authMethod (cli (Login w).2) = AuthPassword) as Hpw' by (by rewrite Hc).
    rewrite (buildRequest_cookie _ _ _ _ _ _ _ Hpw' (or_intror eq_refl) Hb).
    rewrite Hc. simpl. rewrite Hck. destruct (String.eqb_spec ticket ""); [congruence|done].
Qed.

(** X7. [do] sends its request once and never again: whatever the answer,
    the world after it is the world before, or the world with the one
    request on the wire, the client being as it was; an error of the
    transport is returned as it is, with the target untouched. *)
Theorem do_sends_once {T} `{Target T} method path body headers csrf (out : option T) w :
  ((do method path body headers csrf out w).2 = w
   ∨ ∃ req, buildRequest (cli w) method path body headers csrf = Some req
            ∧ (do method path body headers csrf out w).2 = pushWire w req)
  ∧ (∀ req msg, buildRequest (cli w) method path body headers csrf = Some req →
                server w (wire w) req = NetError msg →
                (do method path body headers csrf out w).1 = (out, Some (ErrTransport msg))).
Proof.
  rewrite do_eq. split.
  - destruct (buildRequest _ _ _ _ _ _) as [req|]; [right; by exists req|by left].
  - intros req msg -> ->. done.
Qed.

(** X8. The caller's headers are written after those of [do]: the header
    that the loop over the caller's map meets last is the one the request
    carries under its name, also when the name is that of Authorization,
    Cookie, CSRFPreventionToken or Accept. *)
Theorem do_caller_header_wins c method path body headers k v csrf req :
  buildRequest c method path body (headers ++ [(k, v)]) csrf = Some req →
  Header.Get (Headers req) k = v.
Proof.
  intros (req0 & _ & ->)%buildRequest_Some.
  rewrite foldl_app. cbn [foldl]. apply Get_setHeader_eq.
Qed.

(** ** The calls of vm.go and their answers *)

Lemma do_sent_inv {T} `{Target T} method path body headers csrf (out : option T) w req :
  sent (do method path body headers csrf out) w = [req] →
  buildRequest (cli w) method path body headers csrf = Some req.
Proof.
  rewrite do_sent. destruct (buildRequest _ _ _ _ _ _); [|done]. by intros [= ->].
Qed.

Lemma do_answer {T} `{Target T} method path body headers csrf (out : option T) w req resp :
  sent (do method path body headers csrf out) w = [req] →
  server w (wire w) req = Answer resp →
  (do method path body headers csrf out w).1 = unwrap resp out.
Proof. intros Hb%do_sent_inv Hresp. by rewrite do_eq, Hb, Hresp. Qed.

Lemma GetVMConfig_eq node vmid w :
  GetVMConfig node vmid w =
  let r := do "GET" (apiNodesPath +:+ "/" +:+ URLEscape.PathEscape node +:+ "/qemu/"
                     +:+ Bytes.Itoa vmid +:+ "/config") None [] false (Some (None : gomap)) w in
  (match r.1 with
   | (_, Some err) => (None, Some err)
   | (raw, None) => (Some (GetVMConfig_loop (range (default None raw))), None)
   end, r.2).
Proof. unfold GetVMConfig, bind. by destruct (do _ _ _ _ _ _ w) as [[raw [e|]] w']. Qed.

Lemma StartVM_eq node vmid w :
  StartVM node vmid w =
  let r := do "POST" (apiNodesPath +:+ "/" +:+ URLEscape.PathEscape node +:+ "/qemu/"
                      +:+ Bytes.Itoa vmid +:+ apiVmStartSubPath) None [] false
              (Some (None : gomap)) w in
  (match r.1 with
   | (_, Some err) => (None, Some err)
   | (resp, None) => (default None resp, None)
   end, r.2).
Proof. unfold StartVM, bind. by destruct (do _ _ _ _ _ _ w) as [[raw [e|]] w']. Qed.

Lemma StopVM_eq node vmid w :
  StopVM node vmid w =
  let r := do "POST" (apiNodesPath +:+ "/" +:+ URLEscape.PathEscape node +:+ "/qemu/"
                      +:+ Bytes.Itoa vmid +:+ apiVmStopSubPath) None [] false
              (Some (None : gomap)) w in
  (match r.1 with
   | (_, Some err) => (None, Some err)
   | (resp, None) => (default None resp, None)
   end, r.2).
Proof. unfold StopVM, bind. by destruct (do _ _ _ _ _ _ w) as [[raw [e|]] w']. Qed.

Lemma unwrap_nil_map_without_data resp :
  BodyFault resp = false → StatusCode resp < 400 →
  RespBody resp = ""
  ∨ json_whole (RespBody resp) = Some JSON.Null
  ∨ (∃ ms, json_whole (RespBody resp) = Some (JSON.Object ms)
           ∧ (member "data" ms = None ∨ member "data" ms = Some JSON.Null)) →
  unwrap resp (Some (None : gomap)) = (Some None, None).
Proof.
  intros Hf Hs Hbody.
  destruct (String.eqb_spec (RespBody resp) "") as [E|Hne].
  { unfold unwrap. rewrite Hf, E. by destruct (Z.leb_spec 400 (StatusCode resp)); [lia|]. }
  destruct Hbody as [?|[Hnull|(ms & Hms & Hd)]]; [done|..].
  - rewrite unwrap_below_400 by done. unfold unmarshal_struct. by rewrite Hnull.
  - rewrite (unwrap_success resp ms) by done. by destruct Hd as [-> | ->].
Qed.

Lemma GetVMConfig_loop_nil : GetVMConfig_loop (range None) = emptyConfig.
Proof. unfold range. simpl. by rewrite map_to_list_empty. Qed.

(** X9. An answer below 400 that brings no data (an empty body, null, an
    object without a data member or with a null one) is no error for
    [GetVMConfig]: it returns the empty configuration, whose Raw map is
    empty and not nil. *)
Theorem GetVMConfig_without_data node vmid w req resp :
  sent (GetVMConfig node vmid) w = [req] →
  server w (wire w) req = Answer resp →
  BodyFault resp = false → StatusCode resp < 400 →
  RespBody resp = ""
  ∨ json_whole (RespBody resp) = Some JSON.Null
  ∨ (∃ ms, json_whole (RespBody resp) = Some (JSON.Object ms)
           ∧ (member "data" ms = None ∨ member "data" ms = Some JSON.Null)) →
  (GetVMConfig node vmid w).1 = (Some emptyConfig, None)
  ∧ cfgRaw emptyConfig = Some ∅.
Proof.
  intros Hsent Hresp Hf Hs Hbody. split; [|done].
  rewrite (sent_ext _ _ _ (GetVMConfig_world node vmid w)) in Hsent.
  rewrite GetVMConfig_eq. cbv zeta. cbn [fst].
  rewrite (do_answer _ _ _ _ _ _ _ _ _ Hsent Hresp).
  rewrite unwrap_nil_map_without_data by done.
  exact (f_equal (fun cfg => (Some cfg, None)) GetVMConfig_loop_nil).
Qed.

(** X10. [StartVM] and [StopVM] decode the data of the answer into a map:
    when the data is anything but null or an object (a task identifier, as
    a string, say), the call that the server accepted returns the error of
    the decoding and a nil map. *)
Theorem StartVM_StopVM_data_not_a_map w node vmid call req resp ms v :
  call = StartVM node vmid ∨ call = StopVM node vmid →
  sent call w = [req] →
  server w (wire w) req = Answer resp →
  BodyFault resp = false → StatusCode resp < 400 → RespBody resp ≠ "" →
  json_whole (RespBody resp) = Some (JSON.Object ms) →
  member "data" ms = Some v → mismatch v = true →
  (call w).1 = (None, Some ErrDecodingData).
Proof.
  intros Hcall Hsent Hresp Hf Hs Hne Hms Hd Hv.
  assert (unwrap resp (Some (None : gomap)) = (Some None, Some ErrDecodingData)) as Hu.
  { rewrite (unwrap_success resp ms) by done. rewrite Hd.
    by destruct v. }
  destruct Hcall as [-> | ->].
  - rewrite (sent_ext _ _ _ (StartVM_world node vmid w)) in Hsent.
    rewrite StartVM_eq. cbv zeta. cbn [fst].
    by rewrite (do_answer _ _ _ _ _ _ _ _ _ Hsent Hresp), Hu.
  - rewrite (sent_ext _ _ _ (StopVM_world node vmid w)) in Hsent.
    rewrite StopVM_eq. cbv zeta. cbn [fst].
    by rewrite (do_answer _ _ _ _ _ _ _ _ _ Hsent Hresp), Hu.
Qed.

Lemma unwrap_no_target resp :
  BodyFault resp = false →
  (unwrap resp (@None gomap)).2 =
  if 400 <=? StatusCode resp
  then Some (APIError (StatusCode resp) (unmarshal_struct errors_field (RespBody resp) None).1)
  else None.
Proof. intros Hf. unfold unwrap. rewrite Hf. by destruct (400 <=? StatusCode resp). Qed.

(** X11. [CreateVM] and [UpdateVMConfig] give [do] no target, so the
    status alone decides: they return nil exactly when it is below 400,
    whatever the body holds. *)
Theorem CreateVM_UpdateVMConfig_status_decides w node vmid cfg call req resp :
  0 < vmid →
  call = CreateVM node vmid (Some cfg) ∨ call = UpdateVMConfig node vmid (Some cfg) →
  sent call w = [req] →
  server w (wire w) req = Answer resp →
  BodyFault resp = false →
  ((call w).1 = None ↔ StatusCode resp < 400)
  ∧ (400 <= StatusCode resp → ∃ errs, (call w).1 = Some (APIError (StatusCode resp) errs)).
Proof.
  intros Hpos Hcall Hsent Hresp Hf.
  assert ((call w).1 =
          if 400 <=? StatusCode resp
          then Some (APIError (StatusCode resp)
                       (unmarshal_struct errors_field (RespBody resp) None).1)
          else None) as ->.
  { destruct Hcall as [-> | ->].
    - rewrite (sent_ext _ _ _ (CreateVM_world node vmid cfg w Hpos)) in Hsent.
      unfold CreateVM, bind. destruct (Z.leb_spec vmid 0); [lia|].
      destruct (do _ _ _ _ _ _ w) as [r w'] eqn:E. cbn [fst ret].
      apply (f_equal fst) in E. cbn [fst] in E.
      rewrite (do_answer _ _ _ _ _ _ _ _ _ Hsent Hresp) in E. rewrite <- E.
      by apply unwrap_no_target.
    - rewrite (sent_ext _ _ _ (UpdateVMConfig_world node vmid cfg w)) in Hsent.
      unfold UpdateVMConfig, bind.
      destruct (do _ _ _ _ _ _ w) as [r w'] eqn:E. cbn [fst ret].
      apply (f_equal fst) in E. cbn [fst] in E.
      rewrite (do_answer _ _ _ _ _ _ _ _ _ Hsent Hresp) in E. rewrite <- E.
      by apply unwrap_no_target. }
  destruct (Z.leb_spec 400 (StatusCode resp)); split; [split; [done|lia] | by eexists | done | lia].
Qed.

(** X12. [ListVMs] takes 200 alone for a success: any other status, those
    between 201 and 399 too, is returned as an error with the status and
    the body, and no list. *)
Theorem ListVMs_wants_200 w node full req resp :
  sent (ListVMs node full) w = [req] →
  server w (wire w) req = Answer resp →
  ((ListVMs node full w).1.2 = None → StatusCode resp = 200)
  ∧ (StatusCode resp ≠ 200 →
     (ListVMs node full w).1 = ([], Some (ErrUnexpectedStatus (StatusCode resp) (RespBody resp)))).
Proof.
  rewrite ListVMs_sent. unfold ListVMs, bind, getClient, httpDo.
  destruct (NewRequestWithContext _ _ _) as [req0|]; [|done].
  intros [= <-] Hresp. cbn [fst snd ret]. rewrite Hresp.
  destruct (Z.eqb_spec (StatusCode resp) 200) as [E|E]; cbn [negb]; [split; [done|congruence]|].
  split; [|done]. cbn. done.
Qed.


(** ** Bodies *)

Lemma append_assoc (a b c : string) : (a +:+ b) +:+ c = a +:+ (b +:+ c).
Proof.
  induction a as [|x a IH]; [done|].
  change (String x ((a +:+ b) +:+ c) = String x (a +:+ (b +:+ c))). by rewrite IH.
Qed.




Lemma Itoa_nonempty z : Bytes.Itoa z ≠ "".
Proof.
  unfold Bytes.Itoa. destruct (Z.to_int z) as [d|d]; [|done].
  cbn [NilZero.string_of_int]. by destruct d.
Qed.










(** ** The node name on the wire *)







(** ** The login request and the container call *)

Lemma form_copy (params : gmap string string) :
  map_fold (fun k v (form : gmap string string) => <[k := v]> form) ∅ params = params.
Proof.
  apply (map_fold_weak_ind (fun r m => r = m)); [done|]. by intros i x m r _ ->.
Qed.

(** X21. [CreateLXCContainer] sends one POST to the lxc path of the node,
    the node name written as it is, with the token in the Authorization
    header and the parameters as the form; it returns nil exactly when the
    answer has status 200, and the client of the package plays no part. *)
Theorem CreateLXCContainer_one_post host token node params w req :
  sent (CreateLXCContainer host token node params) w = [req] →
  (Method req = "POST"
   ∧ Url req = host +:+ "/api2/json/nodes/" +:+ node +:+ "/lxc"
   ∧ Header.Get (Headers req) "Authorization" = "PVEAPIToken=" +:+ token
   ∧ Header.Get (Headers req) "Content-Type" = "application/x-www-form-urlencoded"
   ∧ Body req = Some (Values_Encode params))
  ∧ ((CreateLXCContainer host token node params w).1 = None ↔
     ∃ resp, server w (wire w) req = Answer resp ∧ StatusCode resp = 200)
  ∧ cli (CreateLXCContainer host token node params w).2 = cli w.
Proof.
  unfold sent, CreateLXCContainer, bind, httpDo. rewrite form_copy.
  destruct (NewRequestWithContext _ _ _) as [req0|] eqn:Hreq; cbn [ret fst snd].
  2: { rewrite drop_all. done. }
  assert (Method req0 = "POST") as Hm.
  { unfold NewRequestWithContext in Hreq. cbn in Hreq.
    destruct (url_Parse _); [|done]. by injection Hreq as <-. }
  apply NewRequest_Some in Hreq as (Hurl & Hempty & Hbody).
  set (r := setHeader _ _ _).
  assert ((let (rt, w') := (server w (wire w) r, pushWire w r) in
           match rt with
           | Answer resp =>
               if negb (StatusCode resp =? 200) then ret (Some (LxcStatus (StatusCode resp)))
               else ret None
           | NetError msg => ret (Some (LxcTransport msg))
           end w') =
          (match server w (wire w) r with
           | Answer resp =>
               if negb (StatusCode resp =? 200) then Some (LxcStatus (StatusCode resp)) else None
           | NetError msg => Some (LxcTransport msg)
           end, pushWire w r)) as ->.
  { destruct (server w (wire w) r) as [resp|msg]; [|done]. by destruct (negb _). }
  cbn [fst snd pushWire wire cli]. rewrite drop_app_length. intros [= <-].
  split_and!; [by rewrite <- Hm|by rewrite <- Hurl|..|done|idtac|done].
  - unfold r. rewrite (Get_setHeader_ne _ "Content-Type") by canon_ne. apply Get_setHeader_eq.
  - apply Get_setHeader_eq.
  - destruct (server w (wire w) r) as [resp|msg].
    + destruct (Z.eqb_spec (StatusCode resp) 200) as [E|E]; cbn [negb].
      * split; [by exists resp|done].
      * split; [done|]. by intros (? & [= <-] & ?).
    + split; [done|]. by intros (? & ? & _).
Qed.



End MoreFacts.

(** ** Parameter maps *)

Lemma setIf_lookup k v m k' :
  setIf k v m !! k' = if decide (k = k' ∧ v ≠ "") then Some v else m !! k'.
Proof.
  unfold setIf. destruct (String.eqb_spec v ""); cbn [negb].
  - by rewrite decide_False by (by intros [_ ?]).
  - destruct (decide (k = k')) as [->|].
    + by rewrite lookup_insert_eq, decide_True.
    + by rewrite lookup_insert_ne, decide_False by (by intros [? _] || done).
Qed.

Lemma setIf_typed (l : list (string * string)) k v :
  NoDup l.*1 →
  foldr (fun kv => setIf kv.1 kv.2) ∅ l !! k = Some v ↔ v ≠ "" ∧ (k, v) ∈ l.
Proof.
  induction l as [|[k0 v0] l IH]; intros Hnd.
  - cbn [foldr]. rewrite lookup_empty. split; [done|]. by intros [_ ?%elem_of_nil].
  - apply NoDup_cons in Hnd as [Hk0 Hnd]. cbn [foldr fst snd]. rewrite setIf_lookup.
    rewrite elem_of_cons. destruct (decide _) as [[-> Hv0]|Hno].
    + split; [intros [= ->]; auto|]. intros [_ [[= ->]|Hin]]; [done|].
      destruct Hk0. apply list_elem_of_fmap. by exists (k, v).
    + rewrite IH by done. split; [intros [? ?]; auto|].
      intros [Hv [[= -> ->]|Hin]]; [|done]. by destruct Hno.
Qed.

Lemma setIf_raw (base raw : gmap string string) k v :
  map_fold setIf base raw !! k = Some v ↔
  (v ≠ "" ∧ raw !! k = Some v) ∨ ((raw !! k = None ∨ raw !! k = Some "") ∧ base !! k = Some v).
Proof.
  revert k v. apply (map_fold_weak_ind (fun r m => ∀ k v, r !! k = Some v ↔
    (v ≠ "" ∧ m !! k = Some v) ∨ ((m !! k = None ∨ m !! k = Some "") ∧ base !! k = Some v))).
  - intros k v. rewrite lookup_empty. intuition congruence.
  - intros i x m r Hi IH k v. rewrite setIf_lookup.
    destruct (decide _) as [[-> Hx]|Hno].
    + rewrite lookup_insert_eq. intuition congruence.
    + rewrite IH. destruct (decide (i = k)) as [->|Hik].
      * rewrite lookup_insert_eq, Hi.
        destruct (decide (x = "")) as [->|Hx]; [|by destruct Hno].
        intuition congruence.
      * by rewrite lookup_insert_ne.
Qed.

(** X14. What [ToParams] gives: a value is never empty; an entry of Raw
    with a value wins over the typed field of its key; a typed field is
    given when it is not empty and Raw has nothing, or the empty string,
    under its key; the VMID of the configuration is never given. *)
Theorem ToParams_entries cfg k v :
  let raw := default ∅ (cfgRaw cfg) in
  let typed := [("name", cfgName cfg); ("memory", cfgMemoryMB cfg);
                ("sockets", cfgSockets cfg); ("cores", cfgCores cfg);
                ("description", cfgDescription cfg)] in
  ToParams cfg !! k = Some v ↔
  v ≠ "" ∧ (raw !! k = Some v ∨ ((raw !! k = None ∨ raw !! k = Some "") ∧ (k, v) ∈ typed)).
Proof.
  intros raw typed. unfold ToParams. rewrite setIf_raw. fold raw.
  change (setIf "description" _ _) with (foldr (fun kv => setIf kv.1 kv.2) ∅ (reverse typed)).
  rewrite setIf_typed.
  - rewrite elem_of_reverse. tauto.
  - apply (bool_decide_unpack _). by vm_compute.
Qed.

(** ** Container parameters *)

Lemma concat_cons sep x y (l : list string) :
  String.concat sep (x :: y :: l) = x +:+ sep +:+ String.concat sep (y :: l).
Proof. done. Qed.

Lemma join_loop (l : list string) : ∀ acc z,
  foldl (fun sb value => sb +:+ value +:+ newline) acc l +:+ z =
  acc +:+ String.concat newline (l ++ [z]).
Proof.
  induction l as [|x l IH]; intros acc z; [done|].
  cbn [foldl]. rewrite IH. change ((x :: l) ++ [z]) with (x :: (l ++ [z])).
  destruct (l ++ [z]) as [|y r] eqn:E; [by destruct l|].
  by rewrite concat_cons, !append_assoc.
Qed.

Lemma ParseSshPublicKeySlice_general keys :
  keys ≠ [] →
  ParseSshPublicKeySlice keys =
  Some (foldl (fun sb value => sb +:+ value +:+ newline) "" (take (length keys - 1) keys)
        +:+ default "" (keys !! (length keys - 1)%nat)).
Proof. by destruct keys as [|k1 [|k2 r]]. Qed.

Lemma ParseSshPublicKeySlice_concat keys :
  ParseSshPublicKeySlice keys =
  match keys with
  | [] => None
  | _ => Some (String.concat newline keys)
  end.
Proof.
  destruct (decide (keys = [])) as [->|Hne]; [done|].
  rewrite ParseSshPublicKeySlice_general by done.
  destruct (exists_last Hne) as (l & z & ->).
  rewrite List.length_app, Nat.add_sub. cbn [length].
  rewrite list_lookup_middle by done. rewrite take_app_length. cbn [default].
  unfold id. rewrite (join_loop l "" z). by destruct (l ++ [z]) eqn:E; [destruct l|].
Qed.

(** X18. [ParseSshPublicKeySlice] joins the keys with newlines, with none
    after the last key; it fails for the empty slice alone. *)
Theorem ParseSshPublicKeySlice_joins keys :
  ParseSshPublicKeySlice keys =
  match keys with
  | [] => None
  | _ => Some (String.concat newline keys)
  end.
Proof. apply ParseSshPublicKeySlice_concat. Qed.

Lemma setIfNonzero_lookup k n m k' :
  setIfNonzero k n m !! k' = if decide (k = k' ∧ n ≠ 0) then Some (Bytes.Itoa n) else m !! k'.
Proof.
  unfold setIfNonzero. destruct (Z.eqb_spec n 0); cbn [negb].
  - by rewrite decide_False by (by intros [_ ?]).
  - destruct (decide (k = k')) as [->|].
    + by rewrite lookup_insert_eq, decide_True.
    + by rewrite lookup_insert_ne, decide_False by (by intros [? _] || done).
Qed.

Lemma insertIf_lookup (b : bool) k (v : string) (m : gmap string string) k' :
  (if b then <[k := v]> m else m) !! k' = if decide (k = k' ∧ b = true) then Some v else m !! k'.
Proof.
  destruct b.
  - destruct (decide (k = k')) as [->|].
    + by rewrite lookup_insert_eq, decide_True.
    + by rewrite lookup_insert_ne, decide_False by (by intros [? _] || done).
  - by rewrite decide_False by (by intros [_ ?]).
Qed.

Ltac params_lookup :=
  repeat first [rewrite setIf_lookup | rewrite setIfNonzero_lookup | rewrite insertIf_lookup].

(** X19. [ToFormParams] always returns: the exit after a failure of
    [ParseSshPublicKeySlice] is never reached, since the keys are parsed
    only when there is one. With keys, the parameter ssh-public-keys is
    their join by newlines; without, it is absent. *)
Theorem ToFormParams_returns lxc :
  match ToFormParams lxc with
  | Returned params =>
      params !! "ssh-public-keys" =
      match lxcSshPublicKeys lxc with
      | [] => None
      | keys => Some (String.concat newline keys)
      end
  | Exited _ => False
  end.
Proof.
  unfold ToFormParams. rewrite ParseSshPublicKeySlice_concat.
  destruct (lxcSshPublicKeys lxc) as [|k r]; cbn [length Nat.leb].
  - params_lookup. rewrite lookup_empty.
    by repeat (rewrite decide_False by (by intros [? _])).
  - params_lookup. repeat (rewrite decide_False by (by intros [? _])).
    by rewrite lookup_insert_eq.
Qed.

(** X20. The parameters of [ToFormParams] have keys among eighteen names,
    so the bridge, the name server, the search domain, the pool, the
    description, the tags and the other fields without a key of their own
    are never sent; rootfs is there exactly when the storage and the size
    are both given; and no value but that of the keys is empty. *)
Theorem ToFormParams_keys lxc :
  match ToFormParams lxc with
  | Returned params =>
      (∀ k, is_Some (params !! k) → k ∈ formKeys)
      ∧ (∀ v, params !! "rootfs" = Some v ↔
              lxcRootFsSize lxc ≠ "" ∧ lxcStorage lxc ≠ ""
              ∧ v = lxcStorage lxc +:+ ":" +:+ lxcRootFsSize lxc)
      ∧ (∀ k v, params !! k = Some v → k ≠ "ssh-public-keys" → v ≠ "")
  | Exited _ => False
  end.
Proof.
  unfold ToFormParams. rewrite ParseSshPublicKeySlice_concat.
  set (base := setIf "ostemplate" _ _).
  assert (∀ m : gmap string string,
    (∀ k v, m !! k = Some v → k ∈ formKeys ∧ (k ≠ "ssh-public-keys" → v ≠ "")) →
    m !! "rootfs" = None →
    let params :=
      setIf "unprivileged" (lxcUnprivileged lxc)
        (setIf "console" (lxcConsole lxc)
          (setIf "start" (lxcStart lxc)
            (setIf "cmode" (lxcCmode lxc)
              (setIf "arch" (lxcArch lxc)
                (setIf "net0" (lxcNet0 lxc)
                  (setIfNonzero "cpuunits" (lxcCpuUnits lxc)
                    (setIfNonzero "cpulimit" (lxcCpuLimit lxc)
                      (setIfNonzero "cores" (lxcCores lxc)
                        (setIfNonzero "swap" (lxcSwap lxc)
                          (setIfNonzero "memory" (lxcMemory lxc)
                            (if negb (lxcRootFsSize lxc =? "")%string
                                && negb (lxcStorage lxc =? "")%string
                             then <["rootfs" := lxcStorage lxc +:+ ":" +:+ lxcRootFsSize lxc]>
                                    (setIf "storage" (lxcStorage lxc) m)
                             else setIf "storage" (lxcStorage lxc) m))))))))))) in
    (∀ k, is_Some (params !! k) → k ∈ formKeys)
    ∧ (∀ v, params !! "rootfs" = Some v ↔
            lxcRootFsSize lxc ≠ "" ∧ lxcStorage lxc ≠ ""
            ∧ v = lxcStorage lxc +:+ ":" +:+ lxcRootFsSize lxc)
    ∧ (∀ k v, params !! k = Some v → k ≠ "ssh-public-keys" → v ≠ "")) as Hafter.
  { intros m Hm Hroot params.
    assert (∀ k v, params !! k = Some v → k ∈ formKeys ∧ (k ≠ "ssh-public-keys" → v ≠ "")) as Hall.
    { intros k v. unfold params. params_lookup.
      repeat (destruct (decide _) as [[<- Hc]|_];
              [intros [= <-]; split;
               [by repeat first [apply list_elem_of_here | apply list_elem_of_further]
               |intros _; first [done | apply Itoa_nonempty | idtac]]|]); [..|apply Hm].
      apply andb_true_iff in Hc as [Hc _]. apply negb_true_iff in Hc.
      intros E. apply (f_equal String.length) in E. rewrite !length_app in E.
      destruct (lxcRootFsSize lxc); [done|]. simpl in E. lia. }
    split_and!.
    - intros k [v Hv]. by apply Hall in Hv as [? _].
    - intros v. unfold params. params_lookup.
      repeat (rewrite (decide_False (P := _ = "rootfs" ∧ _)) by (by intros [? _])).
      rewrite Hroot. destruct (decide _) as [[_ Hc]|Hc].
      + apply andb_true_iff in Hc as [Hc1 Hc2]. apply negb_true_iff in Hc1, Hc2.
        apply String.eqb_neq in Hc1, Hc2. split; [by intros [= <-]|by intros (_ & _ & ->)].
      + split; [done|]. intros (H1 & H2 & _). destruct Hc. split; [done|].
        apply String.eqb_neq in H1, H2. by rewrite H1, H2.
    - intros k v Hv. by apply Hall in Hv as [_ ?]. }
  assert (∀ k v, base !! k = Some v → k ∈ formKeys ∧ (k ≠ "ssh-public-keys" → v ≠ "")) as Hbase.
  { intros k v. unfold base. params_lookup. rewrite lookup_empty.
    repeat (destruct (decide _) as [[<- Hc]|_];
            [intros [= <-]; split;
             [by repeat first [apply list_elem_of_here | apply list_elem_of_further]
             |intros _; first [done | apply Itoa_nonempty]]|]). done. }
  assert (base !! "rootfs" = None) as Hbroot.
  { unfold base. params_lookup. rewrite lookup_empty.
    by repeat (rewrite decide_False by (by intros [? _])). }
  destruct (lxcSshPublicKeys lxc) as [|k r]; cbn [length Nat.leb].
  - by apply Hafter.
  - apply Hafter.
    + intros k' v. destruct (decide (k' = "ssh-public-keys")) as [->|Hk].
      * intros _. split; [|done].
        by repeat first [apply list_elem_of_here | apply list_elem_of_further].
      * rewrite lookup_insert_ne by done. apply Hbase.
    + by rewrite lookup_insert_ne.
Qed.

(** ** internal/type_helper *)

Lemma digitByte_digit x :
  0 <= x <= 9 →
  Bytes.is_digit (type_helper.digitByte x) = true
  ∧ Z.of_N (Bytes.code (type_helper.digitByte x) - 48) = x
  ∧ Bytes.eqb (type_helper.digitByte x) "+" = false
  ∧ Bytes.eqb (type_helper.digitByte x) "-" = false.
Proof.
  intros Hx.
  assert (x = 0 ∨ x = 1 ∨ x = 2 ∨ x = 3 ∨ x = 4 ∨ x = 5 ∨ x = 6 ∨ x = 7 ∨ x = 8 ∨ x = 9)
    as Hc by lia.
  by repeat destruct Hc as [->|Hc]; try subst x; vm_compute.
Qed.

Lemma drop_insert_here {A} (l : list A) (n : nat) (x : A) :
  (n < length l)%nat → drop n (<[n := x]> l) = x :: drop (S n) l.
Proof.
  revert n. induction l as [|y l IH]; intros [|n] Hn; simpl in *; try lia; [done|].
  apply IH. lia.
Qed.

(** The loop of [String] writes the digits of [i] before what the buffer
    holds from [pos] on, and the sign before them. *)
Lemma String_loop_digits fuel : ∀ (k : nat) (buf : list ascii) (pos i : Z) (signed : bool),
  (k <= fuel)%nat → (1 <= k)%nat → 0 <= i < 10 ^ Z.of_nat k →
  Z.of_nat k + (if signed then 1 else 0) <= pos <= Z.of_nat (length buf) →
  type_helper.String_loop fuel buf pos i signed =
  Some (string_of_list_ascii
          ((if signed then ["-"%char] else []) ++
           digits_before fuel i (drop (Z.to_nat pos) buf))).
Proof.
  induction fuel as [|fuel IH]; intros k buf pos i signed Hk Hk1 Hi Hpos; [lia|].
  cbn [type_helper.String_loop digits_before].
  rewrite Z.quot_div_nonneg by lia.
  replace (i - 10 * (i / 10)) with (i mod 10) by (rewrite Z.mod_eq by lia; lia).
  assert (1 <= pos) as Hpos1 by (destruct signed; lia).
  destruct (Z.ltb_spec (pos - 1) 0) as [?|_]; [exfalso; lia|].
  destruct (Z.leb_spec (Z.of_nat (length buf)) (pos - 1)) as [?|_]; [exfalso; lia|]. cbn [orb].
  assert (drop (Z.to_nat (pos - 1)) (<[Z.to_nat (pos - 1) := type_helper.digitByte (i mod 10)]> buf)
          = type_helper.digitByte (i mod 10) :: drop (Z.to_nat pos) buf) as Hdrop.
  { rewrite drop_insert_here by lia. do 2 f_equal. lia. }
  destruct (Z.eqb_spec (i / 10) 0) as [Hq|Hq].
  - destruct signed; cbn [app].
    + rewrite length_insert.
      destruct (Z.ltb_spec (pos - 1 - 1) 0) as [?|_]; [exfalso; lia|].
      destruct (Z.leb_spec (Z.of_nat (length buf)) (pos - 1 - 1)) as [?|_]; [exfalso; lia|]. cbn [orb].
      rewrite drop_insert_here by (rewrite length_insert; lia).
      replace (S (Z.to_nat (pos - 1 - 1))) with (Z.to_nat (pos - 1)) by lia.
      by rewrite Hdrop.
    + by rewrite Hdrop.
  - assert (2 <= k)%nat as Hk2.
    { destruct (decide (k = 1%nat)) as [->|]; [|lia].
      change (10 ^ Z.of_nat 1) with 10 in Hi. destruct Hq. apply Z.div_small. lia. }
    rewrite (IH (k - 1)%nat); rewrite ?length_insert; try lia.
    + by rewrite Hdrop.
    + split; [apply Z.div_pos; lia|]. apply Z.div_lt_upper_bound; [lia|].
      replace (Z.of_nat k) with (Z.succ (Z.of_nat (k - 1))) in Hi by lia.
      rewrite Z.pow_succ_r in Hi by lia. lia.
Qed.

Lemma digits_before_head fuel : ∀ (k : nat) i acc,
  (k <= fuel)%nat → (1 <= k)%nat → 0 <= i < 10 ^ Z.of_nat k →
  ∃ x rest, 0 <= x <= 9 ∧ digits_before fuel i acc = type_helper.digitByte x :: rest.
Proof.
  induction fuel as [|fuel IH]; intros k i acc Hk Hk1 Hi; [lia|].
  cbn [digits_before]. destruct (Z.eqb_spec (i / 10) 0) as [Hq|Hq].
  - exists (i mod 10), acc. split; [|done]. pose proof (Z.mod_pos_bound i 10). lia.
  - assert (2 <= k)%nat as Hk2.
    { destruct (decide (k = 1%nat)) as [->|]; [|lia].
      change (10 ^ Z.of_nat 1) with 10 in Hi. destruct Hq. apply Z.div_small. lia. }
    apply (IH (k - 1)%nat); try lia.
    split; [apply Z.div_pos; lia|]. apply Z.div_lt_upper_bound; [lia|].
    replace (Z.of_nat k) with (Z.succ (Z.of_nat (k - 1))) in Hi by lia.
    rewrite Z.pow_succ_r in Hi by lia. lia.
Qed.

Lemma scan_digit maxVal n x r :
  0 <= x <= 9 → 0 <= n → 10 * n + x <= maxVal → maxVal <= strconv.maxUint64 →
  strconv.scan maxVal n (String (type_helper.digitByte x) r) = strconv.scan maxVal (10 * n + x) r.
Proof.
  intros Hx Hn Hle Hmax. cbn [strconv.scan].
  destruct (digitByte_digit x Hx) as (-> & -> & _).
  unfold strconv.maxUint64 in *.
  destruct (Z.leb_spec ((2 ^ 64 - 1) / 10 + 1) n) as [Hbig|_].
  { exfalso. change ((2 ^ 64 - 1) / 10 + 1) with 1844674407370955162 in Hbig.
    change (2 ^ 64 - 1) with 18446744073709551615 in Hmax. lia. }
  change (2 ^ 64 - 1) with 18446744073709551615 in Hmax.
  rewrite Z.mod_small by (change (2 ^ 64) with 18446744073709551616; lia).
  destruct (Z.ltb_spec (n * 10 + x) (n * 10)) as [?|_]; [exfalso; lia|].
  destruct (Z.ltb_spec maxVal (n * 10 + x)) as [?|_]; [exfalso; lia|].
  cbn [orb]. f_equal. lia.
Qed.

Lemma scan_digits_before maxVal fuel : ∀ (k : nat) i acc,
  (k <= fuel)%nat → (1 <= k)%nat → 0 <= i < 10 ^ Z.of_nat k →
  i <= maxVal → maxVal <= strconv.maxUint64 →
  strconv.scan maxVal 0 (string_of_list_ascii (digits_before fuel i acc)) =
  strconv.scan maxVal i (string_of_list_ascii acc).
Proof.
  induction fuel as [|fuel IH]; intros k i acc Hk Hk1 Hi Hle Hmax; [lia|].
  cbn [digits_before].
  pose proof (Z.mod_pos_bound i 10 ltac:(lia)) as Hm.
  pose proof (Z.div_mod i 10 ltac:(lia)) as Hdm.
  destruct (Z.eqb_spec (i / 10) 0) as [Hq|Hq].
  - cbn [string_of_list_ascii]. rewrite scan_digit by lia. f_equal. lia.
  - assert (2 <= k)%nat as Hk2.
    { destruct (decide (k = 1%nat)) as [->|]; [|lia].
      change (10 ^ Z.of_nat 1) with 10 in Hi. destruct Hq. apply Z.div_small. lia. }
    assert (0 <= i / 10) by (apply Z.div_pos; lia).
    rewrite (IH (k - 1)%nat); try lia.
    + cbn [string_of_list_ascii]. rewrite scan_digit by lia. f_equal. lia.
    + split; [done|]. apply Z.div_lt_upper_bound; [lia|].
      replace (Z.of_nat k) with (Z.succ (Z.of_nat (k - 1))) in Hi by lia.
      rewrite Z.pow_succ_r in Hi by lia. lia.
Qed.

Lemma ParseUint_digits_before i :
  0 <= i < 2 ^ 32 →
  strconv.ParseUint (string_of_list_ascii (digits_before 12 i [])) 32 = (i, None).
Proof.
  intros Hi.
  assert (0 <= i < 10 ^ Z.of_nat 10) as Hi10.
  { change (10 ^ Z.of_nat 10) with 10000000000. change (2 ^ 32) with 4294967296 in Hi. lia. }
  destruct (digits_before_head 12 10 i [] ltac:(lia) ltac:(lia) Hi10) as (x & rest & Hx & E).
  unfold strconv.ParseUint.
  destruct (string_of_list_ascii (digits_before 12 i [])) as [|c r] eqn:Es.
  { rewrite E in Es. discriminate Es. }
  rewrite <- Es. change (2 ^ 32 - 1) with 4294967295.
  rewrite (scan_digits_before _ 12 10) by
    (try done; try lia; change (2 ^ 32) with 4294967296 in Hi; try lia;
     unfold strconv.maxUint64; change (2 ^ 64 - 1) with 18446744073709551615; lia).
  done.
Qed.

(** X22. [String] never writes outside its buffer of eleven bytes: for
    every int32 it returns a text, and [ParseInt32] reads the number back
    from it. *)
Theorem String_ParseInt32_round_trip n :
  - 2 ^ 31 <= n < 2 ^ 31 →
  ∃ s, type_helper.String n = Some s ∧ type_helper.ParseInt32 s = (n, None).
Proof.
  intros Hn. change (2 ^ 31) with 2147483648 in Hn.
  set (i := if n <? 0 then - n else n).
  assert (0 <= i <= 2147483648 ∧ ((n <? 0) = false → i < 2147483648)) as [Hi Hi'].
  { unfold i. destruct (Z.ltb_spec n 0); lia. }
  assert (type_helper.String n =
          Some (string_of_list_ascii ((if n <? 0 then ["-"%char] else []) ++ digits_before 12 i [])))
    as HS.
  { unfold type_helper.String. cbv zeta. fold i.
    rewrite (String_loop_digits 12 10); [done|lia|lia|..].
    - change (10 ^ Z.of_nat 10) with 10000000000. lia.
    - rewrite length_replicate. destruct (n <? 0); lia. }
  eexists. split; [exact HS|].
  pose proof (ParseUint_digits_before i ltac:(change (2 ^ 32) with 4294967296; lia)) as HU.
  unfold type_helper.ParseInt32, strconv.ParseInt.
  destruct (Z.ltb_spec n 0) as [Hneg|Hpos].
  - cbn [app string_of_list_ascii]. change (Bytes.eqb "-" "+") with false.
    change (Bytes.eqb "-" "-") with true. cbv iota beta. rewrite HU.
    change (2 ^ (32 - 1)) with 2147483648. cbn [negb andb].
    destruct (Z.ltb_spec 2147483648 i) as [?|_]; [exfalso; lia|].
    f_equal. unfold type_helper.wrap. change (2 ^ (32 - 1)) with 2147483648.
    change (2 ^ 32) with 4294967296. unfold i.
    rewrite Z.mod_small by lia. lia.
  - specialize (Hi' eq_refl).
    assert (0 <= i < 10 ^ Z.of_nat 10) as Hi10 by (change (10 ^ Z.of_nat 10) with 10000000000; lia).
    destruct (digits_before_head 12 10 i [] ltac:(lia) ltac:(lia) Hi10) as (x & rest & Hx & E).
    cbn [app]. revert HU. rewrite E. cbn [string_of_list_ascii]. intros HU.
    destruct (digitByte_digit x Hx) as (_ & _ & -> & ->). rewrite HU.
    change (2 ^ (32 - 1)) with 2147483648. cbn [negb andb].
    destruct (Z.leb_spec 2147483648 i) as [?|_]; [exfalso; lia|].
    f_equal. unfold type_helper.wrap. change (2 ^ (32 - 1)) with 2147483648.
    change (2 ^ 32) with 4294967296. unfold i.
    rewrite Z.mod_small by lia. lia.
Qed.

Lemma scan_nonneg maxVal s : ∀ n,
  0 <= n → 0 <= maxVal → 0 <= (strconv.scan maxVal n s).1.
Proof.
  induction s as [|c r IH]; intros n Hn Hmax; [done|]. cbn [strconv.scan].
  destruct (Bytes.is_digit c); [|done].
  destruct (_ <=? n); [done|].
  destruct (_ || _); [done|]. apply IH; [|done].
  apply Z.mod_pos_bound. by change (2 ^ 64) with 18446744073709551616.
Qed.

(** X23. [ParseInt32] gives the number that [strconv.ParseInt] read: a
    number read without error lies in the range of int32, so the conversion
    to int32 changes nothing; with an error the result is zero. *)
Theorem ParseInt32_exact s :
  match strconv.ParseInt s 32 with
  | (v, None) => - 2 ^ 31 <= v < 2 ^ 31 ∧ type_helper.ParseInt32 s = (v, None)
  | (_, Some e) => type_helper.ParseInt32 s = (0, Some e)
  end.
Proof.
  unfold type_helper.ParseInt32.
  destruct (strconv.ParseInt s 32) as [v [e|]] eqn:E; [done|].
  assert (- 2 ^ 31 <= v < 2 ^ 31) as Hv.
  { unfold strconv.ParseInt in E. destruct s as [|c r]; [done|].
    set (p := if Bytes.eqb c "+" then _ else _) in E. destruct p as [neg s'].
    pose proof (scan_nonneg (2 ^ 32 - 1) s' 0 ltac:(done) ltac:(done)) as Hs.
    assert (0 <= (strconv.ParseUint s' 32).1) as Hu.
    { unfold strconv.ParseUint. by destruct s'. }
    destruct (strconv.ParseUint s' 32) as [un [[]|]]; [done|..]; cbn [fst] in Hu;
      change (2 ^ (32 - 1)) with 2147483648 in E; change (2 ^ 31) with 2147483648;
      destruct neg; cbn [negb andb] in E;
      repeat match type of E with
             | context [?a <=? ?b] => destruct (Z.leb_spec a b)
             | context [?a <? ?b] => destruct (Z.ltb_spec a b)
             end; injection E as <-; try done; lia. }
  split; [done|]. f_equal. unfold type_helper.wrap.
  change (2 ^ (32 - 1)) with 2147483648. change (2 ^ 32) with 4294967296.
  change (2 ^ 31) with 2147483648 in Hv. rewrite Z.mod_small by lia. lia.
Qed.

(** X24. [Int64ToInt] returns the value unchanged when it fits [int] and
    the overflow error when it does not; where [int] has 64 bits the error
    cannot occur. *)
Theorem Int64ToInt_exact intSize value :
  intSize = 32 ∨ intSize = 64 →
  - 2 ^ 63 <= value < 2 ^ 63 →
  (- 2 ^ (intSize - 1) <= value < 2 ^ (intSize - 1) →
   type_helper.Int64ToInt intSize value = (value, None))
  ∧ (¬ (- 2 ^ (intSize - 1) <= value < 2 ^ (intSize - 1)) →
     type_helper.Int64ToInt intSize value =
     (0, Some {| type_helper.Value := value; type_helper.Msg := "int64 value overflows int" |}))
  ∧ (intSize = 64 → type_helper.Int64ToInt intSize value = (value, None)).
Proof.
  intros Hsize Hv. unfold type_helper.Int64ToInt, type_helper.wrap.
  change (2 ^ 63) with 9223372036854775808 in Hv.
  destruct Hsize as [-> | ->].
  - change ((Z.shiftr (2 ^ 32 - 1) 1 + 2 ^ (64 - 1)) mod 2 ^ 64 - 2 ^ (64 - 1)) with 2147483647.
    change (2 ^ (32 - 1)) with 2147483648. change (2 ^ 32) with 4294967296.
    destruct (Z.ltb_spec 2147483647 value); destruct (Z.ltb_spec value (Z.opp 2147483647 - 1));
      cbn [orb]; split_and!; intros; try done; try (exfalso; lia);
      f_equal; rewrite Z.mod_small by lia; lia.
  - change ((Z.shiftr (2 ^ 64 - 1) 1 + 2 ^ (64 - 1)) mod 2 ^ 64 - 2 ^ (64 - 1))
      with 9223372036854775807.
    change (2 ^ (64 - 1)) with 9223372036854775808.
    change (2 ^ 64) with 18446744073709551616.
    destruct (Z.ltb_spec 9223372036854775807 value);
      destruct (Z.ltb_spec value (Z.opp 9223372036854775807 - 1));
      cbn [orb]; split_and!; intros; try done; try (exfalso; lia);
      f_equal; rewrite Z.mod_small by lia; lia.
Qed.

(** * The theorems at work

    The statements above, run on the stand-ins of [Demo]. *)

Import Demo.

(** An equation between closed terms, checked by evaluating both sides. *)
Ltac run := lazymatch goal with |- ?a = ?b => vm_cast_no_check (@eq_refl _ b) end.

(** C1: the claim fails. A client fresh from [NewClient] has no ticket,
    its credentials are invalid; [StartVM] on it sends the start request
    and nothing before it, the request is answered, and the credential
    state is still at its zero value. The login request is not on the
    wire. *)
Lemma StartVM_goes_out_without_login :
  credInvalid (cli acknowledging) (clock acknowledging)
  ∧ authMethod (cli acknowledging) = AuthPassword
  ∧ map (fun req => (Method req, Url req)) (sent (call (OpStartVM "pve" 100)) acknowledging)
    = [("POST", "https://pve.example:8006/api2/json/nodes/pve/qemu/100/status/start")]
  ∧ (call (OpStartVM "pve" 100) acknowledging).1 = RMap None None
  ∧ credentials (cli (call (OpStartVM "pve" 100) acknowledging).2) = zeroCredentials
  ∧ (Method loginOfFresh, Url loginOfFresh)
    = ("POST", "https://pve.example:8006/api2/json/access/ticket")
  ∧ ¬ (∃ rest, sent (call (OpStartVM "pve" 100)) acknowledging = loginOfFresh :: rest).
Proof.
  assert (map (fun req => (Method req, Url req))
              (sent (call (OpStartVM "pve" 100)) acknowledging)
          = [("POST", "https://pve.example:8006/api2/json/nodes/pve/qemu/100/status/start")])
    as Hsent by run.
  assert ((Method loginOfFresh, Url loginOfFresh)
          = ("POST", "https://pve.example:8006/api2/json/access/ticket")) as Hlogin by run.
  split; [by left|]. split_and!; [run|exact Hsent|run|run|exact Hlogin|].
  intros [rest E]. rewrite E in Hsent. cbn [map] in Hsent.
  apply (f_equal (fun l => snd <$> head l)) in Hsent. cbn in Hsent.
  apply (f_equal snd) in Hlogin. cbn in Hlogin.
  rewrite Hlogin in Hsent. discriminate Hsent.
Qed.

Lemma login_is_left_to_Login_at_work :
  (cli (call (OpStartVM "pve" 100) acknowledging).2 = cli acknowledging
   ∧ (length (sent (call (OpStartVM "pve" 100)) acknowledging) ≤ 1)%nat
   ∧ loginOfFresh ∉ sent (call (OpStartVM "pve" 100)) acknowledging)
  ∧ sent Login acknowledging = [loginOfFresh].
Proof.
  apply (login_is_left_to_Login acknowledging (OpStartVM "pve" 100) loginOfFresh).
  - reflexivity.
  - reflexivity.
  - left. reflexivity.
  - vm_compute. split; [reflexivity|discriminate].
  - run.
Defined.

(** C2: asked not to skip verification, [NewClient] returns a client that
    skips it. *)
Lemma NewClient_skips_when_asked_not_to :
  NewClient "https://pve.example:8006/" "root@pam" "secret" false false = Ok fresh
  ∧ skipsVerify fresh = true.
Proof.
  assert (NewClient "https://pve.example:8006/" "root@pam" "secret" false false = Ok fresh)
    as Hc by (run).
  split; [exact Hc|].
  exact (NewClient_always_skips_verification _ _ _ false false fresh Hc).
Defined.

(** C3: a client in a session holds a CSRF token; its [StartVM] and
    [StopVM] requests go out without it, its [CreateVM] request with it. *)
Lemma StartVM_StopVM_send_no_csrf_at_work :
  csrfToken (cli inSession) = "65F1A2B3:csrf"
  ∧ length (sent (StartVM "pve" 100) inSession ++ sent (StopVM "pve" 100) inSession) = 2%nat
  ∧ Forall (fun req => Header.Get (Headers req) "CSRFPreventionToken" = "")
           (sent (StartVM "pve" 100) inSession ++ sent (StopVM "pve" 100) inSession).
Proof.
  split; [reflexivity|]. split; [run|].
  apply (StartVM_StopVM_send_no_csrf inSession "pve" 100). reflexivity.
Defined.

(** The escaped segment of the other operations is escaped once more when
    [URL.String] writes the path. *)
Example CreateVM_escapes_node :
  map Url (sent (CreateVM "pve/../x" 100 (Some emptyConfig)) inSession)
  = ["https://pve.example:8006/api2/json/nodes/pve%252F..%252Fx/qemu"].
Proof. run. Qed.

Example CreateVM_sends_csrf :
  map (fun req => Header.Get (Headers req) "CSRFPreventionToken")
      (sent (CreateVM "pve" 100 (Some emptyConfig)) inSession) = ["65F1A2B3:csrf"].
Proof. run. Qed.

(** C4: the claim fails. A 403 with a body that is no JSON gives an
    APIError with status 403 whose errors map is nil. *)
Lemma forbidden_text_gives_nil_errors :
  (do "GET" "/api2/json/version" None [] false (Some (None : gomap)) forbidding).1
  = (Some None, Some (APIError 403 None))
  ∧ ¬ ∃ errors : gmap string any,
        (do "GET" "/api2/json/version" None [] false (Some (None : gomap)) forbidding).1.2
        = Some (APIError 403 (Some errors)).
Proof.
  assert ((do "GET" "/api2/json/version" None [] false (Some (None : gomap)) forbidding).1
          = (Some None, Some (APIError 403 None))) as E by (run).
  split; [exact E|]. rewrite E. by intros [errors ?].
Qed.

Lemma api_error_keeps_status_at_work :
  ∃ errs,
    (do "GET" "/api2/json/version" None [] false (Some (None : gomap)) forbidding).1
    = (Some None, Some (APIError 403 errs))
    ∧ (json_whole "Forbidden" = None → errs = None)
    ∧ (∀ ms, json_whole "Forbidden" = Some (JSON.Object ms) →
             member "errors" ms = None → errs = None)
    ∧ (∀ ms fields, json_whole "Forbidden" = Some (JSON.Object ms) →
             member "errors" ms = Some (JSON.Object fields) → is_Some errs).
Proof.
  apply (api_error_keeps_status "GET" "/api2/json/version" None [] false (Some (None : gomap))
           forbidding versionRequest
           {| StatusCode := 403; RespBody := "Forbidden"; BodyFault := false; Cookies := [] |}).
  - run.
  - reflexivity.
  - reflexivity.
  - vm_compute. discriminate.
Defined.

(** C5: a test run of a token-mode client. *)
Lemma token_mode_leaves_credentials_alone_at_work :
  Login withToken = (None, withToken)
  ∧ cli (run testRun withToken).2 = cli withToken
  ∧ (credentials (cli withToken) = zeroCredentials →
     credentials (cli (run testRun withToken).2) = zeroCredentials)
  ∧ (∀ k, (run testRun (reCred withToken k)).1 = (run testRun withToken).1
          ∧ wire (run testRun (reCred withToken k)).2 = wire (run testRun withToken).2)
  ∧ Forall (tokenAuthOnly (cli withToken)) (sent (run testRun) withToken).
Proof. apply (token_mode_leaves_credentials_alone withToken testRun). reflexivity. Defined.

Example token_run_sends_five :
  map Method (sent (run testRun) withToken) = ["POST"; "POST"; "GET"; "GET"; "POST"]
  ∧ credentials (cli withToken) = zeroCredentials.
Proof. split; run. Qed.

(** C6: a login that the server rejects with 401. *)
Lemma Login_failure_keeps_credentials_at_work :
  (∃ e, (Login rejecting).1 = Some e)
  ∧ credentials (cli (Login rejecting).2) = credentials (cli rejecting)
  ∧ sent Login rejecting = [loginOfFresh].
Proof.
  apply (Login_failure_keeps_credentials rejecting loginOfFresh
           {| StatusCode := 401; RespBody := "authentication failure";
              BodyFault := false; Cookies := [] |}).
  - reflexivity.
  - run.
  - run.
  - reflexivity.
  - left. discriminate.
Defined.

(** C7: the claim fails. A target that holds a map is set to nil by a
    null payload: it is not left untouched. *)
Lemma null_payload_resets_target :
  (do "POST" "/api2/json/nodes/pve/qemu/100/status/start" None [] false (Some heldMap)
      acknowledging).1 = (Some None, None)
  ∧ Some (None : gomap) ≠ Some heldMap.
Proof. split; [run|discriminate]. Qed.

Lemma envelope_unwrapping_at_work :
  let t : gomap := None in
  let body := RespBody vmEnvelope in
  (json_whole body = None → unwrap vmEnvelope (Some t) = (Some t, Some ErrInvalidJSON))
  ∧ (∀ v, json_whole body = Some v → mismatch v = true →
          unwrap vmEnvelope (Some t) = (Some t, Some ErrInvalidJSON))
  ∧ (json_whole body = Some JSON.Null → unwrap vmEnvelope (Some t) = (Some t, None))
  ∧ (∀ ms, json_whole body = Some (JSON.Object ms) →
       (member "data" ms = None → unwrap vmEnvelope (Some t) = (Some t, None))
       ∧ (member "data" ms = Some JSON.Null → unwrap vmEnvelope (Some t) = (Some None, None))
       ∧ (∀ fields, member "data" ms = Some (JSON.Object fields) →
            ∃ m, (unwrap vmEnvelope (Some t)).1 = Some (Some m)
                 ∧ (∀ k, m !! k = match member_exact k fields with
                                  | Some x => Some (to_any x)
                                  | None => default ∅ t !! k
                                  end)
                 ∧ ((unwrap vmEnvelope (Some t)).2 = None
                    ∨ (unwrap vmEnvelope (Some t)).2 = Some ErrDecodingData))
       ∧ (∀ v, member "data" ms = Some v → mismatch v = true →
            unwrap vmEnvelope (Some t) = (Some t, Some ErrDecodingData)))
  ∧ unwrap vmEnvelope (@None gomap) = (None, None).
Proof.
  apply (envelope_unwrapping vmEnvelope None).
  - reflexivity.
  - reflexivity.
  - vm_compute. discriminate.
Defined.

Example envelope_of_the_spec :
  json_whole (RespBody vmEnvelope)
  = Some (JSON.Object
            [("data", JSON.Object [("vmid", JSON.Number "100"); ("name", JSON.Str "test")])])
  ∧ (unwrap vmEnvelope (Some (None : gomap))).2 = None
  ∧ entries (unwrap vmEnvelope (Some (None : gomap))).1
    = Some [("name", VString "test"); ("vmid", VFloat64 100)].
Proof. split_and!; run. Qed.

(** C8: a node name with slashes reaches the URL of [ListVMs] as it is. *)
Lemma ListVMs_sends_raw_node_at_work :
  map Url (sent (ListVMs "pve/../x" false) acknowledging)
  = ["https://pve.example:8006/api2/json/nodes/pve/../x/qemu?full=0"]
  ∧ URLEscape.PathEscape "pve/../x" = "pve%2F..%2Fx"
  ∧ Forall (fun req =>
              Url req = listVMsURL (cli acknowledging) "pve/../x" false ∧
              (URLEscape.PathEscape "pve/../x" ≠ "pve/../x" →
               Url req ≠ listVMsURL (cli acknowledging) (URLEscape.PathEscape "pve/../x") false))
           (sent (ListVMs "pve/../x" false) acknowledging).
Proof.
  split; [run|]. split; [run|].
  apply (ListVMs_sends_raw_node acknowledging "pve/../x" false).
Defined.

(** C9: a vmid of zero. *)
Lemma CreateVM_UpdateVMConfig_guards_at_work :
  (∃ e, CreateVM "pve" 0 (Some emptyConfig) acknowledging = (Some e, acknowledging))
  ∧ (∃ e, UpdateVMConfig "pve" 0 None acknowledging = (Some e, acknowledging)).
Proof.
  apply (CreateVM_UpdateVMConfig_guards acknowledging "pve" 0 (Some emptyConfig)).
  right. lia.
Defined.

(** C10: a raw config, met in one order by one loop and in the reverse
    order by the other. *)
Lemma GetVMConfig_loop_is_ParseQemuVmConfig_at_work :
  GetVMConfig_loop (range rawConfig) = ParseQemuVmConfig_loop (reverse (range rawConfig))
  ∧ GetVMConfig_loop (range rawConfig) = ParseQemuVmConfig rawConfig.
Proof.
  apply (GetVMConfig_loop_is_ParseQemuVmConfig rawConfig).
  - reflexivity.
  - apply reverse_Permutation.
Defined.

Example ParseQemuVmConfig_of_rawConfig :
  ParseQemuVmConfig rawConfig
  = {| cfgName := "vm1"; cfgVmid := ""; cfgMemoryMB := "2048"; cfgSockets := "";
       cfgCores := "4"; cfgDescription := "";
       cfgRaw := Some {["net0" := "virtio,bridge=vmbr0"]} |}.
Proof. run. Qed.

(** ** The rest of the package at work *)

Import Cases.

(** X1 *)
Lemma newClient_trailing_slash_at_work :
  newClient ("https://pve.example:8006" +:+ "/") "root@pam" "secret" AuthPassword true
  = newClient "https://pve.example:8006" "root@pam" "secret" AuthPassword true.
Proof. apply (newClient_trailing_slash "https://pve.example:8006"). discriminate. Defined.

(** X2: the fresh client logs in. *)
Lemma Login_success_stores_at_work :
  (Login granting).1 = None
  ∧ cli (Login granting).2 =
      withCredentials (cli granting)
        {| credTicket := "PVE:root@pam:65F1A2B3::sig"; credCSRF := "65F1A2B3:csrf";
           credCookie := findAuthCookie (Cookies grant); credLastLogin := clock granting |}
  ∧ sent Login granting = [loginOfFresh].
Proof.
  apply (Login_success_stores granting loginOfFresh grant).
  - reflexivity.
  - run.
  - run.
  - reflexivity.
  - reflexivity.
  - run.
Defined.

(** X3: a second login a minute later. *)
Lemma Login_once_per_window_at_work :
  let again := let* _ := Login in let* _ := setClock (t2026 + 60 * time.Second) in Login in
  again granting = (None, (setClock (t2026 + 60 * time.Second) (Login granting).2).2)
  ∧ sent again granting = [loginOfFresh].
Proof.
  apply (Login_once_per_window granting loginOfFresh grant
           "PVE:root@pam:65F1A2B3::sig" "65F1A2B3:csrf" (t2026 + 60 * time.Second)).
  - reflexivity.
  - run.
  - run.
  - reflexivity.
  - reflexivity.
  - run.
  - discriminate.
  - vm_compute. split; [reflexivity|discriminate].
  - vm_compute. reflexivity.
Defined.

(** X4: a 200 with an empty object. *)
Lemma Login_accepts_missing_ticket_at_work :
  (Login silent).1 = None
  ∧ authTicket (cli (Login silent).2) = ""
  ∧ ∀ t, credInvalid (cli (Login silent).2) t.
Proof.
  apply (Login_accepts_missing_ticket silent loginOfFresh bare (JSON.Object [])).
  - reflexivity.
  - run.
  - run.
  - reflexivity.
  - reflexivity.
  - run.
  - right. by exists [].
Defined.

(** X5 *)
Lemma do_password_cookie_at_work :
  Forall (fun req =>
            Header.Get (Headers req) "Cookie" =
            match authCookie (cli inSession) with
            | Some ck => sanitizeCookieName (Name ck) +:+ "=" +:+ sanitizeCookieValue (Value ck)
            | None =>
                if negb (authTicket (cli inSession) =? "")%string
                then "PVEAuthCookie=" +:+ authTicket (cli inSession) else ""
            end
            ∧ Header.Get (Headers req) "Authorization" = "")
         (sent (do "GET" "/api2/json/version" None [] false (Some (None : gomap))) inSession).
Proof.
  apply (do_password_cookie "GET" "/api2/json/version" None false (Some (None : gomap)) inSession).
  reflexivity.
Defined.

(** X6: login, then [CreateVM]. *)
Lemma Login_then_CreateVM_at_work :
  (sent (let* _ := Login in CreateVM "pve" 100 (Some emptyConfig)) granting
   = [loginOfFresh; createInSession])
  ∧ Header.Get (Headers createInSession) "CSRFPreventionToken" = "65F1A2B3:csrf"
  ∧ Header.Get (Headers createInSession) "Cookie" = "PVEAuthCookie=" +:+ "PVE:root@pam:65F1A2B3::sig".
Proof.
  apply (Login_then_CreateVM granting loginOfFresh grant
           "PVE:root@pam:65F1A2B3::sig" "65F1A2B3:csrf" "pve" 100 emptyConfig createInSession).
  - reflexivity.
  - run.
  - run.
  - reflexivity.
  - reflexivity.
  - run.
  - discriminate.
  - discriminate.
  - reflexivity.
  - lia.
  - run.
Defined.

(** X8: the caller asks for text. *)
Lemma do_caller_header_wins_at_work : Header.Get (Headers textRequest) "Accept" = "text/plain".
Proof.
  apply (do_caller_header_wins session "GET" "/api2/json/version" None [] "Accept" "text/plain"
           false textRequest).
  run.
Defined.

(** X9: the null payload. *)
Lemma GetVMConfig_without_data_at_work :
  (GetVMConfig "pve" 100 acknowledging).1 = (Some emptyConfig, None)
  ∧ cfgRaw emptyConfig = Some ∅.
Proof.
  apply (GetVMConfig_without_data "pve" 100 acknowledging configRequest nullData).
  - run.
  - reflexivity.
  - reflexivity.
  - reflexivity.
  - right. right. exists [("data", JSON.Null)]. split; [run|]. right. reflexivity.
Defined.

(** X10: the task identifier of a start. *)
Lemma StartVM_StopVM_data_not_a_map_at_work :
  (StartVM "pve" 100 queueing).1 = (None, Some ErrDecodingData).
Proof.
  apply (StartVM_StopVM_data_not_a_map queueing "pve" 100 (StartVM "pve" 100) startRequest task
           [("data", JSON.Str "UPID:pve:0001A2B3:qmstart:100:root@pam:")]
           (JSON.Str "UPID:pve:0001A2B3:qmstart:100:root@pam:")).
  - left. reflexivity.
  - run.
  - reflexivity.
  - reflexivity.
  - reflexivity.
  - discriminate.
  - run.
  - reflexivity.
  - reflexivity.
Defined.

(** X11 *)
Lemma CreateVM_UpdateVMConfig_status_decides_at_work :
  ((CreateVM "pve" 100 (Some emptyConfig) acknowledging).1 = None ↔ StatusCode nullData < 400)
  ∧ (400 <= StatusCode nullData →
     ∃ errs, (CreateVM "pve" 100 (Some emptyConfig) acknowledging).1
             = Some (APIError (StatusCode nullData) errs)).
Proof.
  apply (CreateVM_UpdateVMConfig_status_decides acknowledging "pve" 100 emptyConfig
           (CreateVM "pve" 100 (Some emptyConfig)) createRequest nullData).
  - lia.
  - left. reflexivity.
  - run.
  - reflexivity.
  - reflexivity.
Defined.

(** X12: a 403. *)
Lemma ListVMs_wants_200_at_work :
  ((ListVMs "pve" false forbidding).1.2 = None → StatusCode refusal = 200)
  ∧ (StatusCode refusal ≠ 200 →
     (ListVMs "pve" false forbidding).1
     = ([], Some (ErrUnexpectedStatus (StatusCode refusal) (RespBody refusal)))).
Proof.
  apply (ListVMs_wants_200 forbidding "pve" false listRequest refusal).
  - run.
  - reflexivity.
Defined.




(** X21 *)
Lemma CreateLXCContainer_one_post_at_work :
  (Method lxcRequest = "POST"
   ∧ Url lxcRequest = "https://pve.example:8006" +:+ "/api2/json/nodes/" +:+ "pve" +:+ "/lxc"
   ∧ Header.Get (Headers lxcRequest) "Authorization" = "PVEAPIToken=" +:+ "root@pam!cli=5a1e-secret"
   ∧ Header.Get (Headers lxcRequest) "Content-Type" = "application/x-www-form-urlencoded"
   ∧ Body lxcRequest = Some (Values_Encode lxcParams))
  ∧ ((CreateLXCContainer "https://pve.example:8006" "root@pam!cli=5a1e-secret" "pve" lxcParams
        acknowledging).1 = None ↔
     ∃ resp, server acknowledging (wire acknowledging) lxcRequest = Answer resp
             ∧ StatusCode resp = 200)
  ∧ cli (CreateLXCContainer "https://pve.example:8006" "root@pam!cli=5a1e-secret" "pve" lxcParams
           acknowledging).2 = cli acknowledging.
Proof.
  apply (CreateLXCContainer_one_post "https://pve.example:8006" "root@pam!cli=5a1e-secret" "pve"
           lxcParams acknowledging lxcRequest).
  run.
Defined.

(** X22: the least int32, which fills the buffer. *)
Lemma String_ParseInt32_round_trip_at_work :
  ∃ s, type_helper.String (-2147483648) = Some s
       ∧ type_helper.ParseInt32 s = (-2147483648, None).
Proof. apply (String_ParseInt32_round_trip (-2147483648)). lia. Defined.

(** X24: a number beyond int32. *)
Lemma Int64ToInt_exact_at_work :
  (- 2 ^ (32 - 1) <= 4294967296 < 2 ^ (32 - 1) →
   type_helper.Int64ToInt 32 4294967296 = (4294967296, None))
  ∧ (¬ (- 2 ^ (32 - 1) <= 4294967296 < 2 ^ (32 - 1)) →
     type_helper.Int64ToInt 32 4294967296 =
     (0, Some {| type_helper.Value := 4294967296;
                 type_helper.Msg := "int64 value overflows int" |}))
  ∧ (32 = 64 → type_helper.Int64ToInt 32 4294967296 = (4294967296, None)).
Proof. apply (Int64ToInt_exact 32 4294967296); [by left|lia]. Defined.

(** X25 *)
Lemma CreateVM_UpdateVMConfig_csrf_at_work :
  Forall (fun req =>
            Header.Get (Headers req) "CSRFPreventionToken" =
            match authMethod (cli inSession) with
            | AuthToken => ""
            | AuthPassword => csrfToken (cli inSession)
            end)
         (sent (CreateVM "pve" 100 (Some emptyConfig)) inSession
          ++ sent (UpdateVMConfig "pve" 100 (Some emptyConfig)) inSession).
Proof. apply (CreateVM_UpdateVMConfig_csrf inSession "pve" 100 emptyConfig). lia. Defined.

(** X27: the rejected login. *)
Lemma Login_error_keeps_client_at_work : cli (Login rejecting).2 = cli rejecting.
Proof.
  apply (Login_error_keeps_client rejecting (ErrLoginStatus 401 "authentication failure")).
  run.
Defined.

(** X28 *)
Lemma NewClientPassword_NewClientToken_skip_at_work : skipsVerify fresh = true.
Proof.
  apply (NewClientPassword_NewClientToken_skip "https://pve.example:8006/" "root@pam" "secret"
           false fresh).
  left. run.
Defined.
